(** * Deterministic Tamil/Tanglish order parser: a shallow embedding

    This development models the free order parser of the billing service:
    [preprocessText], [detectQuantityNear], [getSynonymPatterns],
    [QUALIFIER_SKIP], [buildMenuResolver] and [parseOrderWithFuzzyMap],
    in the two copies the repository carries
    ([src/controllers/billController.js] and [src/utils/similarity.js]).

    Text is a list of UTF-16 code units, written as [Z].  Every code point
    that occurs in the source (ASCII and the Tamil block) lies in the Basic
    Multilingual Plane, so a code unit is a code point and the offsets of
    the model are the offsets of JavaScript strings; surrogate pairs are not
    modelled.  JavaScript regular expressions are embedded as an abstract
    syntax together with a backtracking matcher that lists the end positions
    of a match in the order JavaScript's backtracking tries them. *)

From Stdlib Require Import ZArith List String Ascii Bool Lia QArith Qround PrimFloat.
From Stdlib Require FloatOps SpecFloat.
Import ListNotations.
Open Scope Z_scope.

(* ------------------------------------------------------------------ *)
(** ** Characters *)

Definition char := Z.
Definition text := list char.

(** Decoding of the UTF-8 bytes of a Rocq string literal, so that the
    Tamil literals of the source can be written as they are. *)
Fixpoint utf8_dec (bs : list Z) : list Z :=
  match bs with
  | [] => []
  | b :: rest =>
      if b <? 128 then b :: utf8_dec rest
      else if b <? 224 then
        match rest with
        | b1 :: r => ((b - 192) * 64 + (b1 - 128)) :: utf8_dec r
        | [] => []
        end
      else if b <? 240 then
        match rest with
        | b1 :: b2 :: r =>
            ((b - 224) * 4096 + (b1 - 128) * 64 + (b2 - 128)) :: utf8_dec r
        | _ => []
        end
      else
        match rest with
        | b1 :: b2 :: b3 :: r =>
            ((b - 240) * 262144 + (b1 - 128) * 4096 + (b2 - 128) * 64
             + (b3 - 128)) :: utf8_dec r
        | _ => []
        end
  end.

Fixpoint bytes_of (s : string) : list Z :=
  match s with
  | EmptyString => []
  | String a s' => Z.of_nat (nat_of_ascii a) :: bytes_of s'
  end.

(** [u "..."]: the code units of a literal. *)
Definition u (s : string) : text := utf8_dec (bytes_of s).

(** [\s] of ECMAScript: WhiteSpace and LineTerminator. *)
Definition is_space (c : char) : bool :=
  (9 <=? c) && (c <=? 13) || (c =? 32) || (c =? 160) || (c =? 5760)
  || (8192 <=? c) && (c <=? 8202) || (c =? 8232) || (c =? 8233)
  || (c =? 8239) || (c =? 8287) || (c =? 12288) || (c =? 65279).

(** [\d]. *)
Definition is_digit (c : char) : bool := (48 <=? c) && (c <=? 57).

(** [.] under the [u] flag: anything but a line terminator. *)
Definition is_dot (c : char) : bool :=
  negb ((c =? 10) || (c =? 13) || (c =? 8232) || (c =? 8233)).

Definition is_upper_ascii (c : char) : bool := (65 <=? c) && (c <=? 90).

(** Canonicalize of the ignoreCase matcher.  Without the [u] flag only
    ASCII letters fold (a non-ASCII character never folds to ASCII); with
    the [u] flag simple case folding also sends U+017F to [s] and U+212A
    to [k].  No other character folds to an ASCII or a Tamil character,
    the only characters the patterns contain. *)
Definition canon (uflag : bool) (c : char) : char :=
  if is_upper_ascii c then c + 32
  else if uflag && (c =? 383) then 115
  else if uflag && (c =? 8490) then 107
  else c.

(** [\b]'s word characters under [i] (and [u]). *)
Definition is_word (uflag : bool) (c : char) : bool :=
  (48 <=? c) && (c <=? 57) || (65 <=? c) && (c <=? 90)
  || (97 <=? c) && (c <=? 122) || (c =? 95)
  || uflag && ((c =? 383) || (c =? 8490)).

(** [String.prototype.toLowerCase] on the characters the catalogue names
    use: ASCII letters lower, U+212A becomes [k]; Tamil has no case. *)
Definition to_lower_char (c : char) : char :=
  if is_upper_ascii c then c + 32 else if c =? 8490 then 107 else c.

Definition toLowerCase (s : text) : text := map to_lower_char s.

(* ------------------------------------------------------------------ *)
(** ** Regular expressions *)

Inductive re : Type :=
| REps                         (* empty *)
| RChar (c : char)             (* a literal code unit *)
| RSpace                       (* \s *)
| RDigit                       (* \d *)
| RDot                         (* . *)
| RWordB                       (* \b *)
| REnd                         (* $ *)
| RSeq (a b : re)
| RAlt (a b : re)
| ROpt (a : re)                (* a? , greedy *)
| RStar (a : re).              (* a* , greedy *)

Definition RPlus (a : re) : re := RSeq a (RStar a).

Fixpoint lit (s : text) : re :=
  match s with
  | [] => REps
  | [c] => RChar c
  | c :: s' => RSeq (RChar c) (lit s')
  end.

Definition L (s : string) : re := lit (u s).

Fixpoint alts (rs : list re) : re :=
  match rs with
  | [] => REps
  | [r] => r
  | r :: rs' => RAlt r (alts rs')
  end.

Fixpoint seqs (rs : list re) : re :=
  match rs with
  | [] => REps
  | [r] => r
  | r :: rs' => RSeq r (seqs rs')
  end.

(** [a{0,n}], greedy. *)
Fixpoint upto (n : nat) (a : re) : re :=
  match n with
  | O => REps
  | S k => ROpt (RSeq a (upto k a))
  end.

Definition WS := RStar RSpace.     (* \s* *)

(** A compiled pattern: its syntax and whether it carries the [u] flag.
    Every pattern of the parser carries [i]. *)
Record pattern := Pat { pre : re; pu : bool }.

Section Matcher.
Variable t : text.
Variable uflag : bool.

Definition at_ (i : nat) : option char := nth_error t i.

Definition word_at (i : nat) : bool :=
  match at_ i with Some c => is_word uflag c | None => false end.

Definition word_before (i : nat) : bool :=
  match i with O => false | S k => word_at k end.

Definition one (p : char -> bool) (i : nat) : list nat :=
  match at_ i with Some c => if p c then [S i] else [] | None => [] end.

(** Greedy iteration: iterations that match the empty string are refused
    (ECMAScript's RepeatMatcher), so each one advances the position. *)
Fixpoint star_m (fuel : nat) (f : nat -> list nat) (i : nat) : list nat :=
  match fuel with
  | O => [i]
  | S n =>
      flat_map (fun j => if Nat.ltb i j then star_m n f j else []) (f i)
      ++ [i]
  end.

(** [m r i]: the end positions of the matches of [r] starting at [i], in
    backtracking order. *)
Fixpoint m (r : re) (i : nat) : list nat :=
  match r with
  | REps => [i]
  | RChar c => one (fun x => canon uflag x =? canon uflag c) i
  | RSpace => one is_space i
  | RDigit => one is_digit i
  | RDot => one is_dot i
  | RWordB => if xorb (word_before i) (word_at i) then [i] else []
  | REnd => if Nat.eqb i (List.length t) then [i] else []
  | RSeq a b => flat_map (m b) (m a i)
  | RAlt a b => m a i ++ m b i
  | ROpt a => filter (fun j => negb (Nat.eqb j i)) (m a i) ++ [i]
  | RStar a => star_m (S (List.length t)) (m a) i
  end.

(** The first successful match at [i]. *)
Definition match_at (r : re) (i : nat) : option nat :=
  match m r i with [] => None | j :: _ => Some j end.

(** Leftmost match at or after [from]: [RegExpBuiltinExec]. *)
Fixpoint search_from (fuel : nat) (r : re) (from : nat) : option (nat * nat) :=
  match fuel with
  | O => None
  | S n =>
      match match_at r from with
      | Some e => Some (from, e)
      | None => search_from n r (S from)
      end
  end.

Definition exec (r : re) (from : nat) : option (nat * nat) :=
  if Nat.ltb (List.length t) from then None
  else search_from (S (List.length t - from)) r from.

End Matcher.

(** [re.test(s)] for a non-global pattern. *)
Definition test (p : pattern) (s : text) : bool :=
  match exec s (pu p) (pre p) 0 with Some _ => true | None => false end.

(** The matches [while ((match = regex.exec(text)) !== null)] visits, for
    the global copy of a pattern: [lastIndex] moves to the end of each
    match.  A match of the empty string would leave [lastIndex] in place
    and loop for ever; the model stops there (no pattern of the tables
    matches the empty string). *)
Fixpoint exec_loop (fuel : nat) (t : text) (p : pattern) (from : nat)
  : list (nat * nat) :=
  match fuel with
  | O => []
  | S n =>
      match exec t (pu p) (pre p) from with
      | None => []
      | Some (s, e) =>
          if Nat.ltb s e then (s, e) :: exec_loop n t p e else [(s, e)]
      end
  end.

Definition exec_all (t : text) (p : pattern) : list (nat * nat) :=
  exec_loop (S (List.length t)) t p 0.

(* ------------------------------------------------------------------ *)
(** ** The alias pattern tables ([getSynonymPatterns], [QUALIFIER_SKIP]) *)

(** A pattern with the flags [iu], as every alias pattern has. *)
Definition P (r : re) : pattern := Pat r true.

Definition WB := RWordB.
Definition word (s : string) : re := seqs [WB; L s; WB].     (* \bs\b *)
Definition virama : char := 3021.                           (* U+0BCD *)

(** [(கொத்து|குத்து|கோத்து|கொத்த)] *)
Definition KOTHU_TA : re :=
  alts [L "கொத்து"; L "குத்து"; L "கோத்து"; L "கொத்த"].
(** [(kothu|kuthu|koththu)] *)
Definition KOTHU_EN : re := alts [L "kothu"; L "kuthu"; L "koththu"].
(** [(parotta|parota|porotta|barotta)] *)
Definition PAROTTA_EN : re :=
  alts [L "parotta"; L "parota"; L "porotta"; L "barotta"].
(** [(ஏ|எ)] *)
Definition E_TA : re := alts [L "ஏ"; L "எ"].

Definition veg_kothu_patterns : list pattern :=
  [ P (seqs [KOTHU_TA; WS; L "பரோட்டா"]);
    P (seqs [L "kothu"; WS; L "parotta"]);
    P (seqs [L "kothu"; WS; L "parota"]);
    P (seqs [L "kuthu"; WS; L "parotta"]);
    P (seqs [L "kothu"; WS; L "barotta"]);
    P (seqs [L "kothu"; WS; L "porotta"]) ].

Definition egg_kothu_patterns : list pattern :=
  [ P (seqs [L "முட்டை"; WS; KOTHU_TA; WS; ROpt (L "பரோட்டா")]);
    P (seqs [alts [RSeq E_TA (L "க்"); L "எக"; L "ஏக்க"]; WS; KOTHU_TA; WS;
             ROpt (L "பரோட்டா")]);
    P (seqs [L "அண்ட"; ROpt (L "ு"); WS; KOTHU_TA; WS; ROpt (L "பரோட்டா")]);
    P (seqs [L "egg"; WS; KOTHU_EN; WS; ROpt PAROTTA_EN]) ].

Definition chicken_kothu_patterns : list pattern :=
  [ P (seqs [L "சிக்கன்"; WS; KOTHU_TA; WS; ROpt (L "பரோட்டா")]);
    P (seqs [L "chicken"; WS; KOTHU_EN; WS; ROpt PAROTTA_EN]) ].

Definition set_dosa_patterns : list pattern :=
  [ P (seqs [L "செட்"; WS; L "தோசை"]);
    P (seqs [L "set"; WS; L "dosa"]);
    P (seqs [L "set"; WS; L "dosai"]) ].

Definition ghee_dosa_patterns : list pattern :=
  [ P (seqs [L "நெய்"; WS; L "தோசை"]);
    P (seqs [L "ghee"; WS; L "dosa"]) ].

(** [/மசா(ல|ல்)ா\s*தோசை/iu] and [/masala\s*dosa/iu] *)
Definition masala_dosa_common : list pattern :=
  [ P (seqs [L "மசா"; alts [L "ல"; L "ல்"]; L "ா"; WS; L "தோசை"]);
    P (seqs [L "masala"; WS; L "dosa"]) ].

Definition egg_dosa_patterns : list pattern :=
  [ P (seqs [L "முட்டை"; WS; L "தோசை"]);
    P (seqs [L "egg"; WS; L "dosa"]);
    P (seqs [E_TA; L "க்"; upto 12 RDot; L "தோசை"]) ].

Definition plain_dosa_patterns : list pattern :=
  [ P (L "தோசை"); P (word "dosa"); P (word "dosai") ].

Definition parotta_patterns : list pattern :=
  [ P (seqs [L "ப"; alts [L "ு"; REps]; L "ரோட்டா"]);
    P (word "parotta"); P (word "parota"); P (word "barotta");
    P (word "porotta") ].

(** [((ஏ|எ)க்+)]: the [+] applies to the virama. *)
Definition EKK : re := seqs [E_TA; L "க"; RPlus (RChar virama)].

Definition egg_parotta_patterns : list pattern :=
  [ P (seqs [alts [L "முட்டை"; EKK; L "ஏக்க"; L "அண்டு"]; WS;
             ROpt (alts [L "உடன்"; L "ஓடு"; L "ஒடு"; L "தோடு"; L "த்தோடு";
                         L "கூட"]); WS; L "பரோட்டா"]);
    P (seqs [L "egg"; WS; ROpt (L "with"); WS; PAROTTA_EN]);
    P (seqs [PAROTTA_EN; WS; ROpt (L "with"); WS; L "egg"]) ].

Definition kalakki_patterns : list pattern := [ P (L "கலக்கி"); P (L "kalakki") ].

Definition omelette_patterns : list pattern :=
  [ P (L "ஆம்லெட்"); P (RSeq (L "omelett") (ROpt (L "e")));
    P (L "omlette"); P (L "omlet") ].

Definition idly_patterns : list pattern :=
  [ P (L "இட்லி"); P (word "idli"); P (word "idly"); P (word "itly") ].

Definition biryani_patterns : list pattern :=
  [ P (seqs [L "சிக்கன்"; WS; L "பிரியாணி"]);
    P (seqs [L "chicken"; WS; L "biryani"]) ].

Definition tea_patterns : list pattern := [ P (L "டீ"); P (L "tea") ].

Definition curd_rice_patterns : list pattern :=
  [ P (seqs [L "தயிர்"; WS; ROpt (alts [L "சாதம்"; L "சோறு"; L "சா"])]);
    P (seqs [L "curd"; WS; L "rice"]) ].

(** [getSynonymPatterns()] of [similarity.js], in insertion order. *)
Definition getSynonymPatterns_sim : list (string * list pattern) :=
  [ ("Veg Kothu Parotta", veg_kothu_patterns);
    ("Egg Kothu Parotta", egg_kothu_patterns);
    ("Chicken Kothu Parotta", chicken_kothu_patterns);
    ("Set Dosa (1 pcs)", set_dosa_patterns);
    ("Ghee Dosa", ghee_dosa_patterns);
    ("Masala Dosa", app masala_dosa_common [P (seqs [L "m"; WS; L "dosa"])]);
    ("Egg Dosa", egg_dosa_patterns);
    ("Plain Dosa", plain_dosa_patterns);
    ("Parotta (2 pcs)", parotta_patterns);
    ("Egg Parotta", egg_parotta_patterns);
    ("Kalakki", kalakki_patterns);
    ("Omelette", omelette_patterns);
    ("Idly (4 pcs)", idly_patterns);
    ("Chicken Biryani", biryani_patterns);
    ("Tea", tea_patterns);
    ("Curd Rice", curd_rice_patterns) ]%string.

(** [getSynonymPatterns()] of [billController.js]: no [Egg Parotta],
    [Tea] or [Curd Rice], and [\bm\s*dosa\b] for Masala Dosa. *)
Definition getSynonymPatterns_bc : list (string * list pattern) :=
  [ ("Veg Kothu Parotta", veg_kothu_patterns);
    ("Egg Kothu Parotta", egg_kothu_patterns);
    ("Chicken Kothu Parotta", chicken_kothu_patterns);
    ("Set Dosa (1 pcs)", set_dosa_patterns);
    ("Ghee Dosa", ghee_dosa_patterns);
    ("Masala Dosa", app masala_dosa_common [P (seqs [WB; L "m"; WS; L "dosa"; WB])]);
    ("Egg Dosa", egg_dosa_patterns);
    ("Plain Dosa", plain_dosa_patterns);
    ("Parotta (2 pcs)", parotta_patterns);
    ("Kalakki", kalakki_patterns);
    ("Omelette", omelette_patterns);
    ("Idly (4 pcs)", idly_patterns);
    ("Chicken Biryani", biryani_patterns) ]%string.

Definition plain_dosa_skip : re :=
  alts [L "மசாலா"; L "மசால்"; L "நெய்"; L "egg"; L "முட்டை"; L "masala";
        L "ghee"].

(** [QUALIFIER_SKIP] of [similarity.js]. *)
Definition QUALIFIER_SKIP_sim (k : string) : option (list pattern) :=
  if String.eqb k "Plain Dosa" then Some [P plain_dosa_skip]
  else if String.eqb k "Parotta (2 pcs)" then
    Some [P (alts [L "கொத்து"; L "kothu"; L "egg"; L "முட்டை"; EKK; L "ஏக்க";
                   L "அண்டு"; L "chicken"; L "சிக்கன்"])]
  else None.

(** [QUALIFIER_SKIP] of [billController.js]. *)
Definition QUALIFIER_SKIP_bc (k : string) : option (list pattern) :=
  if String.eqb k "Plain Dosa" then Some [P plain_dosa_skip]
  else if String.eqb k "Parotta (2 pcs)" then
    Some [P (alts [L "கொத்து"; L "kothu"; L "egg"; L "முட்டை"; L "chicken";
                   L "சிக்கன்"])]
  else None.

(* ------------------------------------------------------------------ *)
(** ** Text helpers *)

(** [s.slice(a, b)] for [0 <= a]. *)
Definition slice (a b : nat) (s : text) : text := firstn (b - a) (skipn a s).

Fixpoint take_while (p : char -> bool) (s : text) : text :=
  match s with
  | c :: s' => if p c then c :: take_while p s' else []
  | [] => []
  end.

Fixpoint drop_while (p : char -> bool) (s : text) : text :=
  match s with
  | c :: s' => if p c then drop_while p s' else s
  | [] => []
  end.

Fixpoint text_eqb (a b : text) : bool :=
  match a, b with
  | [], [] => true
  | x :: a', y :: b' => (x =? y) && text_eqb a' b'
  | _, _ => false
  end.

(** [parseInt(ds, 10)] of a non-empty run of ASCII digits (exact; the
    source's doubles agree below 2^53). *)
Definition parseInt10 (ds : text) : Z :=
  fold_left (fun acc c => acc * 10 + (c - 48)) ds 0.

(* ------------------------------------------------------------------ *)
(** ** Quantity lexicon and [detectQuantityNear] *)

Definition TAMIL_NUMBER_MAP : list (text * Z) :=
  [ (u "ஓர்", 1); (u "ஒரு", 1);
    (u "இரண்டு", 2); (u "ரெண்டு", 2);
    (u "மூன்று", 3); (u "மூணு", 3);
    (u "நான்கு", 4); (u "நாலு", 4);
    (u "ஐந்து", 5);
    (u "ஆறு", 6); (u "ஆரு", 6);
    (u "ஏழு", 7);
    (u "எட்டு", 8);
    (u "ஒன்பது", 9);
    (u "பத்து", 10) ].

Fixpoint map_get_num (w : text) (l : list (text * Z)) : option Z :=
  match l with
  | [] => None
  | (k, v) :: l' => if text_eqb k w then Some v else map_get_num w l'
  end.

(** [.sort((a, b) => b.length - a.length)]: stable, longest first. *)
Fixpoint ins_by_len (w : text) (l : list text) : list text :=
  match l with
  | [] => [w]
  | x :: r =>
      if Nat.ltb (List.length x) (List.length w) then w :: x :: r
      else x :: ins_by_len w r
  end.

Definition sort_longest_first (l : list text) : list text :=
  fold_left (fun acc w => ins_by_len w acc) l [].

Definition tamilNumberWords : list text :=
  sort_longest_first (map fst TAMIL_NUMBER_MAP).

Record qres := QRes { quantity : Z; qstart : Z; qend : Z }.

Definition range := (Z * Z)%type.      (* {start, end} *)

(** [isUnused]: the half-open span [s, e) meets no used range. *)
Definition isUnused (used : list range) (s e : Z) : bool :=
  forallb (fun r => (e <=? fst r) || (snd r <=? s)) used.

(** [beforeTextFull.match(/(\d+)\s*$/)]: the length of the whole match and
    the digits of group 1.  The leftmost match starts at the first digit of
    the run of digits that only whitespace separates from the end. *)
Definition before_digits (before : text) : option (nat * text) :=
  let rb := rev before in
  let sp := take_while is_space rb in
  let ds := take_while is_digit (skipn (List.length sp) rb) in
  match ds with
  | [] => None
  | _ => Some (List.length sp + List.length ds, rev ds)%nat
  end.

(** [beforeTextFull.match(new RegExp(word + '\\s*$', 'iu'))]: the length
    of the whole match, if any. *)
Definition before_word (w before : text) : option nat :=
  let rb := rev before in
  let sp := take_while is_space rb in
  let rest := skipn (List.length sp) rb in
  if text_eqb (firstn (List.length w) rest) (rev w)
  then Some (List.length w + List.length sp)%nat else None.

(** [afterTextFull.match(/^\s*(\d+)/)]: [indexOf] of group 1 and its
    digits. *)
Definition after_digits (after : text) : option (nat * text) :=
  let sp := take_while is_space after in
  let ds := take_while is_digit (skipn (List.length sp) after) in
  match ds with
  | [] => None
  | _ => Some (List.length sp, ds)
  end.

(** [afterTextFull.match(new RegExp('^\\s*' + word, 'iu'))]: the length of
    the whole match (whose [indexOf] is 0), if any. *)
Definition after_word (w after : text) : option nat :=
  let sp := take_while is_space after in
  let rest := skipn (List.length sp) after in
  if text_eqb (firstn (List.length w) rest) w
  then Some (List.length sp + List.length w)%nat else None.

Definition MAX_BEFORE : nat := 14.
Definition MAX_AFTER : nat := 10.

Section Detect.
Variables (t : text) (i : nat) (used : list range).

Definition windowStart : nat := (i - MAX_BEFORE)%nat.
Definition windowEnd : nat := Nat.min (List.length t) (i + MAX_AFTER).
Definition beforeTextFull : text := slice windowStart i t.
Definition afterTextFull : text := slice i windowEnd t.

(** 1) Numbers before the item. *)
Definition tier1 : option qres :=
  match before_digits beforeTextFull with
  | Some (len0, ds) =>
      let numStart := Z.of_nat i - Z.of_nat len0 in
      let numEnd := Z.of_nat i in
      let parsed := parseInt10 ds in
      if (0 <? parsed) && isUnused used numStart numEnd
      then Some (QRes parsed numStart numEnd) else None
  | None => None
  end.

(** 2) Tamil words before the item, longest first. *)
Fixpoint tier2_loop (ws : list text) : option qres :=
  match ws with
  | [] => None
  | w :: ws' =>
      match before_word w beforeTextFull with
      | Some len0 =>
          let numStart := Z.of_nat i - Z.of_nat len0 in
          let numEnd := Z.of_nat i in
          if isUnused used numStart numEnd
          then Some (QRes (match map_get_num w TAMIL_NUMBER_MAP with
                           | Some q => q | None => 0 end) numStart numEnd)
          else tier2_loop ws'
      | None => tier2_loop ws'
      end
  end.

Definition tier2 : option qres := tier2_loop tamilNumberWords.

(** 3) Numbers after the item. *)
Definition tier3 : option qres :=
  match after_digits afterTextFull with
  | Some (idx, ds) =>
      let numStart := Z.of_nat i + Z.of_nat idx in
      let numEnd := numStart + Z.of_nat (List.length ds) in
      let parsed := parseInt10 ds in
      if (0 <? parsed) && isUnused used numStart numEnd
      then Some (QRes parsed numStart numEnd) else None
  | None => None
  end.

(** 4) Tamil words after the item. *)
Fixpoint tier4_loop (ws : list text) : option qres :=
  match ws with
  | [] => None
  | w :: ws' =>
      match after_word w afterTextFull with
      | Some len0 =>
          let s := Z.of_nat i in
          let e := s + Z.of_nat len0 in
          if isUnused used s e
          then Some (QRes (match map_get_num w TAMIL_NUMBER_MAP with
                           | Some q => q | None => 0 end) s e)
          else tier4_loop ws'
      | None => tier4_loop ws'
      end
  end.

Definition tier4 : option qres := tier4_loop tamilNumberWords.

Definition default_q : qres := QRes 1 (-1) (-1).

Definition detectQuantityNear : qres :=
  match tier1 with
  | Some q => q
  | None =>
      match tier2 with
      | Some q => q
      | None =>
          match tier3 with
          | Some q => q
          | None => match tier4 with Some q => q | None => default_q end
          end
      end
  end.

End Detect.

(* ------------------------------------------------------------------ *)
(** ** [preprocessText] *)

(** [String.prototype.normalize('NFC')] on the Tamil block: canonical
    decomposition, then canonical composition.  The Tamil block's only
    canonical decompositions are the four two-part vowel signs, and its
    only non-zero combining class is the virama's (9); every other code
    point is treated as a starter without decomposition, which is exact
    for ASCII.  With a single non-zero class canonical reordering changes
    nothing and is left out. *)
Definition decomp (c : char) : list char :=
  if c =? 2964 then [2962; 3031]                  (* U+0B94 *)
  else if c =? 3018 then [3014; 3006]             (* U+0BCA *)
  else if c =? 3019 then [3015; 3006]             (* U+0BCB *)
  else if c =? 3020 then [3014; 3031]             (* U+0BCC *)
  else [c].

Definition ccc (c : char) : Z := if c =? 3021 then 9 else 0.

Definition compose (a b : char) : option char :=
  if (a =? 2962) && (b =? 3031) then Some 2964
  else if (a =? 3014) && (b =? 3006) then Some 3018
  else if (a =? 3015) && (b =? 3006) then Some 3019
  else if (a =? 3014) && (b =? 3031) then Some 3020
  else None.

(** The composition pass: [done_] holds the output before the last
    starter (reversed), [st] the last starter, [tl] the characters after it
    (reversed); [c] is blocked from [st] when [tl] ends in a character of
    class [>= ccc c]. *)
Fixpoint compose_pass (done_ : list char) (st : option char) (tl : list char)
  (s : list char) : list char :=
  match s with
  | [] =>
      match st with
      | Some x => rev done_ ++ x :: rev tl
      | None => rev done_
      end
  | c :: s' =>
      let unblocked :=
        match tl with [] => true | b :: _ => ccc b <? ccc c end in
      match st with
      | Some x =>
          match (if unblocked then compose x c else None) with
          | Some y => compose_pass done_ (Some y) tl s'
          | None =>
              if ccc c =? 0 then compose_pass (tl ++ x :: done_) (Some c) [] s'
              else compose_pass done_ st (c :: tl) s'
          end
      | None =>
          if ccc c =? 0 then compose_pass done_ (Some c) [] s'
          else compose_pass (c :: done_) None [] s'
      end
  end.

Definition nfc (s : text) : text := compose_pass [] None [] (flat_map decomp s).

(** The class [[\u200B-\u200D\uFEFF]] of zero-width characters. *)
Definition is_zero_width (c : char) : bool :=
  (8203 <=? c) && (c <=? 8205) || (c =? 65279).

(** The punctuation class of the second [replace]: the characters of
    [punct_chars] and the two quote characters (code units 34 and 39). *)
Definition punct_chars : text := u ".,;:!?()[]{}`~@#%^*&_=+<>/\|-".
Definition is_punct (c : char) : bool :=
  existsb (Z.eqb c) (34 :: 39 :: punct_chars).    (* plus the two quotes *)

(** [.replace(re, ' ')] for a global pattern [[class]+]: every maximal run
    of the class becomes one space. *)
Fixpoint runs_to_space (p : char -> bool) (in_run : bool) (s : text) : text :=
  match s with
  | [] => []
  | c :: s' =>
      if p c then (if in_run then runs_to_space p true s'
                   else 32 :: runs_to_space p true s')
      else c :: runs_to_space p false s'
  end.

(** [.trim()]: WhiteSpace and LineTerminator, the set of [\s]. *)
Definition trim (s : text) : text :=
  rev (drop_while is_space (rev (drop_while is_space s))).

Definition preprocessText (input : text) : text :=
  trim (runs_to_space is_space false
          (runs_to_space is_punct false
             (filter (fun c => negb (is_zero_width c)) (nfc input)))).

(* ------------------------------------------------------------------ *)
(** ** The catalogue and [buildMenuResolver] *)

Record menu_item := MenuItem {
  name : option text;          (* [item.name] *)
  tamilName : option text;     (* [item.tamilName] *)
  price : Z                    (* [item.price] *)
}.

Definition or_empty (o : option text) : text :=
  match o with Some s => s | None => [] end.

(** A resolver pattern: flag [i] only. *)
Definition R (r : re) : pattern := Pat r false.

(** [has(item, re)]: the pattern tested on the lower-cased English and
    Tamil names. *)
Definition has (item : menu_item) (r : re) : bool :=
  test (R r) (toLowerCase (or_empty (name item)))
  || test (R r) (toLowerCase (or_empty (tamilName item))).

Definition KOTHU_PAROTTA := seqs [L "kothu"; WS; L "parotta"].

Definition pred_veg_kothu (it : menu_item) : bool :=
  has it KOTHU_PAROTTA && negb (has it (alts [L "egg"; L "chicken"])).
Definition pred_egg_kothu (it : menu_item) : bool :=
  has it (L "egg") && has it KOTHU_PAROTTA.
Definition pred_chicken_kothu (it : menu_item) : bool :=
  has it (L "chicken") && has it KOTHU_PAROTTA.
Definition pred_set_dosa (it : menu_item) : bool :=
  has it (seqs [L "set"; WS; L "dosa"]).
Definition pred_ghee_dosa (it : menu_item) : bool :=
  has it (seqs [L "ghee"; WS; L "dosa"]) || has it (seqs [L "நெய்"; WS; L "தோசை"]).
Definition pred_masala_dosa (it : menu_item) : bool :=
  has it (seqs [L "masala"; WS; L "dosa"]) || has it (seqs [L "மசாலா"; WS; L "தோசை"]).
Definition pred_egg_dosa (it : menu_item) : bool :=
  has it (seqs [L "egg"; WS; L "dosa"]) || has it (seqs [L "முட்டை"; WS; L "தோசை"]).
Definition pred_plain_dosa (it : menu_item) : bool :=
  has it (word "dosa")
  && negb (has it (alts [L "masala"; L "ghee"; L "onion"; L "egg"; L "uthappam";
                         L "set"; L "kal"]))
  && negb (has it (alts [L "மசாலா"; L "நெய்"; L "வெங்காய"; L "முட்டை"; L "செட்"])).
Definition pred_parotta (it : menu_item) : bool :=
  has it (alts [L "parotta"; L "parota"])
  && negb (has it (alts [L "kothu"; L "egg"; L "chicken"])).
Definition pred_kalakki (it : menu_item) : bool :=
  has it (L "kalakki") || has it (L "கலகி").
Definition pred_omelette (it : menu_item) : bool :=
  has it (L "omelet") || has it (L "ஆம்லெட்").
Definition pred_idly (it : menu_item) : bool :=
  has it (alts [L "idli"; L "idly"]) || has it (L "இட்லி").
Definition pred_biryani (it : menu_item) : bool :=
  has it (L "chicken") && has it (alts [L "biryani"; L "பிரியாணி"]).
Definition pred_egg_parotta (it : menu_item) : bool :=
  has it (L "egg") && has it PAROTTA_EN.
Definition pred_tea (it : menu_item) : bool :=
  has it (word "tea") || has it (L "டீ").
Definition pred_curd_rice (it : menu_item) : bool :=
  has it (seqs [L "curd"; WS; L "rice"])
  || has it (seqs [L "தயிர்"; WS; alts [L "சாதம்"; L "சோறு"]]).

(** The [switch (aliasKey)] of [billController.js]. *)
Definition switch_bc (k : string) : option (menu_item -> bool) :=
  if String.eqb k "Veg Kothu Parotta" then Some pred_veg_kothu
  else if String.eqb k "Egg Kothu Parotta" then Some pred_egg_kothu
  else if String.eqb k "Chicken Kothu Parotta" then Some pred_chicken_kothu
  else if String.eqb k "Set Dosa (1 pcs)" then Some pred_set_dosa
  else if String.eqb k "Ghee Dosa" then Some pred_ghee_dosa
  else if String.eqb k "Masala Dosa" then Some pred_masala_dosa
  else if String.eqb k "Egg Dosa" then Some pred_egg_dosa
  else if String.eqb k "Plain Dosa" then Some pred_plain_dosa
  else if String.eqb k "Parotta (2 pcs)" then Some pred_parotta
  else if String.eqb k "Kalakki" then Some pred_kalakki
  else if String.eqb k "Omelette" then Some pred_omelette
  else if String.eqb k "Idly (4 pcs)" then Some pred_idly
  else if String.eqb k "Chicken Biryani" then Some pred_biryani
  else None.

(** The [switch (aliasKey)] of [similarity.js]: three more cases. *)
Definition switch_sim (k : string) : option (menu_item -> bool) :=
  if String.eqb k "Egg Parotta" then Some pred_egg_parotta
  else if String.eqb k "Tea" then Some pred_tea
  else if String.eqb k "Curd Rice" then Some pred_curd_rice
  else switch_bc k.

(** [resolve] of [billController.js]: the switch alone. *)
Definition resolve_bc (menuItems : list menu_item) (aliasKey : string)
  : option menu_item :=
  match switch_bc aliasKey with
  | Some p => find p menuItems
  | None => None
  end.

(** [resolve] of [similarity.js]: exact canonical name first. *)
Definition resolve_sim (menuItems : list menu_item) (aliasKey : string)
  : option menu_item :=
  let keyLower := toLowerCase (u aliasKey) in
  match find (fun mi => text_eqb (toLowerCase (or_empty (name mi))) keyLower)
             menuItems with
  | Some exact => Some exact
  | None =>
      match switch_sim aliasKey with
      | Some p => find p menuItems
      | None => None
      end
  end.

(* ------------------------------------------------------------------ *)
(** ** [parseOrderWithFuzzyMap] *)

(** The argument [voiceInputText], as a JavaScript value. *)
Inductive jsval : Type :=
| JSUndefined
| JSNull
| JSBool (b : bool)
| JSNumber (n : Z)
| JSString (s : text)
| JSObject.

Record order_line := OrderLine {
  itemName : option text;
  lquantity : Z;
  unitPrice : Z;
  totalPrice : Z
}.

(** What differs between the two copies of the parser. *)
Record variant := Variant {
  synonymPatterns : list (string * list pattern);
  qualifierSkip : string -> option (list pattern);
  qualifierWindow : nat;                      (* [match.index - W] *)
  resolver : list menu_item -> string -> option menu_item
}.

Definition sim_variant : variant :=
  Variant getSynonymPatterns_sim QUALIFIER_SKIP_sim 28 resolve_sim.
Definition bc_variant : variant :=
  Variant getSynonymPatterns_bc QUALIFIER_SKIP_bc 16 resolve_bc.

(** [orderMap], a JavaScript [Map]: insertion order, [set] updates in
    place. *)
Definition omap := list (string * Z).

Fixpoint omap_get (k : string) (mp : omap) : option Z :=
  match mp with
  | [] => None
  | (k', v) :: mp' => if String.eqb k' k then Some v else omap_get k mp'
  end.

Fixpoint omap_set (k : string) (v : Z) (mp : omap) : omap :=
  match mp with
  | [] => [(k, v)]
  | (k', v') :: mp' =>
      if String.eqb k' k then (k', v) :: mp' else (k', v') :: omap_set k v mp'
  end.

(** The parser's local state: [orderMap] and [usedRanges]. *)
Record pstate := PState { orderMap : omap; usedRanges : list range }.

Section Scan.
Variable V : variant.
Variable t : text.

(** [skipQualifiers.some(re => re.test(windowText))] *)
Definition shouldSkip (aliasKey : string) (idx : nat) : bool :=
  match qualifierSkip V aliasKey with
  | Some skips =>
      let windowText := slice (idx - qualifierWindow V) idx t in
      existsb (fun p => test p windowText) skips
  | None => false
  end.

(** The body of the [while] loop for one match at [idx]. *)
Definition step (aliasKey : string) (st : pstate) (idx : nat) : pstate :=
  if shouldSkip aliasKey idx then st
  else
    let q := detectQuantityNear t idx (usedRanges st) in
    let used' :=
      if (0 <=? qstart q) && (qstart q <? qend q)
      then usedRanges st ++ [(qstart q, qend q)] else usedRanges st in
    let prev := match omap_get aliasKey (orderMap st) with
                | Some v => v | None => 0 end in
    PState (omap_set aliasKey (prev + quantity q) (orderMap st)) used'.

Definition scan_pattern (aliasKey : string) (st : pstate) (p : pattern) : pstate :=
  fold_left (fun st se => step aliasKey st (fst se)) (exec_all t p) st.

Definition scan_alias (st : pstate) (kp : string * list pattern) : pstate :=
  fold_left (scan_pattern (fst kp)) (snd kp) st.

Definition scan : pstate :=
  fold_left scan_alias (synonymPatterns V) (PState [] []).

End Scan.

(** The final loop over [orderMap]. *)
Definition build_lines (resolve : string -> option menu_item) (mp : omap)
  : list order_line :=
  flat_map (fun kq =>
              match resolve (fst kq) with
              | None => []
              | Some mi =>
                  [OrderLine (name mi) (snd kq) (price mi) (price mi * snd kq)]
              end) mp.

Definition parseOrderWithFuzzyMap (V : variant) (voiceInputText : jsval)
  (menuItems : list menu_item) : list order_line :=
  match voiceInputText with
  | JSString s =>
      match s with
      | [] => []                                  (* '' is falsy *)
      | _ =>
          let t := preprocessText s in
          match t with
          | [] => []
          | _ => build_lines (resolver V menuItems) (orderMap (scan V t))
          end
      end
  | _ => []                       (* falsy, or [typeof] is not 'string' *)
  end.

(* ------------------------------------------------------------------ *)
(** ** Where an alias match can start

    An over-approximation of [m] on a text of which only a window is
    known: [K] lists, for each offset from the start position, the
    characters that may stand there; nothing is known before the start or
    after the window.  [am r k] returns the offsets inside the window where
    a match of [r] from offset [k] may end, and whether some path leaves
    the window (in which case nothing is concluded). *)

Section Abstract.
Variable K : list (list char).
Variable uflag : bool.

Definition aone (p : char -> bool) (k : nat) : list nat * bool :=
  match nth_error K k with
  | Some cs => (if existsb p cs then [S k] else [], false)
  | None => ([], true)
  end.

Fixpoint astar (fuel : nat) (f : nat -> list nat * bool) (k : nat)
  : list nat * bool :=
  match fuel with
  | O => ([k], true)
  | S n =>
      let rs := map (fun j => if Nat.ltb k j then astar n f j else ([], false))
                    (fst (f k)) in
      (flat_map fst rs ++ [k], snd (f k) || existsb snd rs)
  end.

Fixpoint am (r : re) (k : nat) : list nat * bool :=
  match r with
  | REps => ([k], false)
  | RWordB => ([k], false)
  | RChar c => aone (fun x => canon uflag x =? canon uflag c) k
  | RSpace => aone is_space k
  | RDigit => aone is_digit k
  | RDot => aone is_dot k
  | REnd => match nth_error K k with Some _ => ([], false) | None => ([k], false) end
  | RSeq a b =>
      let rs := map (am b) (fst (am a k)) in
      (flat_map fst rs, snd (am a k) || existsb snd rs)
  | RAlt a b => (fst (am a k) ++ fst (am b k), snd (am a k) || snd (am b k))
  | ROpt a => (fst (am a k) ++ [k], snd (am a k))
  | RStar a => astar (S (List.length K)) (am a) k
  end.

(** No match can start where the window holds. *)
Definition no_match_here (r : re) : bool :=
  match am r 0 with ([], false) => true | _ => false end.

End Abstract.

(** The characters [\s] or [\d] accept. *)
Definition space_digit_chars : list char :=
  [9; 10; 11; 12; 13; 32; 160; 5760; 8192; 8193; 8194; 8195; 8196; 8197;
   8198; 8199; 8200; 8201; 8202; 8232; 8233; 8239; 8287; 12288; 65279;
   48; 49; 50; 51; 52; 53; 54; 55; 56; 57].

(** The windows at a match start that would let tier 3 or tier 4 of
    [detectQuantityNear] fire: a whitespace or digit first, or a number
    word. *)
Definition after_windows : list (list (list char)) :=
  [space_digit_chars] :: map (map (fun c => [c])) tamilNumberWords.

Definition cannot_start_after_tier (p : pattern) : bool :=
  forallb (fun K => no_match_here K (pu p) (pre p)) after_windows.

Definition table_cannot_start (tbl : list (string * list pattern)) : bool :=
  forallb (fun kp => forallb cannot_start_after_tier (snd kp)) tbl.

(* ------------------------------------------------------------------ *)
(** ** Properties and fixtures *)

Definition apart (r1 r2 : range) : Prop := snd r1 <= fst r2 \/ snd r2 <= fst r1.

Definition pairwise_apart (l : list range) : Prop :=
  forall i j r1 r2, i <> j -> nth_error l i = Some r1 -> nth_error l j = Some r2 ->
  apart r1 r2.

(** Catalogue entries of [DEFAULT_MENU_ITEMS] in [billController.js]. *)
Definition mi (n ta : string) (p : Z) : menu_item := MenuItem (Some (u n)) (Some (u ta)) p.

Definition item_plain_dosa := mi "Plain Dosa" "பிளைன் தோசை" 30.
Definition item_dosa := mi "Dosa" "தோசை" 80.
Definition item_parotta := mi "Parotta (2 pcs)" "பரோட்டா" 40.
Definition item_veg_kothu := mi "Veg Kothu Parotta" "காய்கறி கொத்து பரோட்டா" 60.
Definition item_egg_kothu := mi "Egg Kothu Parotta" "முட்டை கொத்து பரோட்டா" 60.

Definition kothu_menu : list menu_item :=
  [item_parotta; item_veg_kothu; item_egg_kothu].

Definition line_of (it : menu_item) (q : Z) : order_line :=
  OrderLine (name it) q (price it) (price it * q).

(* ================================================================== *)
(** * The LLM fallback, [MENU_CATALOG] and [generateBillFromVoice]
    (second module of [billController.js]) *)

(* ------------------------------------------------------------------ *)
(** ** JSON values, as [JSON.parse] builds them *)

(** A JavaScript number: a finite double, by its exact rational value, or
    one of the infinities ([JSON.parse] gives one when a literal
    overflows), or NaN. *)
Inductive jsnum : Type :=
| JFinite (q : Q)
| JPosInf
| JNegInf
| JNaN.

#[warnings="-register-all"]
Inductive json : Type :=
| JNull
| JBool (b : bool)
| JNum (n : jsnum)
| JStr (s : text)
| JArr (xs : list json)
| JObj (fields : list (string * json)).   (* in source order *)

(** Truthiness, for [l && ...]. *)
Definition truthy (l : json) : bool :=
  match l with
  | JNull => false
  | JBool b => b
  | JNum (JFinite q) => negb (Qeq_bool q 0)
  | JNum JNaN => false
  | JNum _ => true
  | JStr s => match s with [] => false | _ => true end
  | JArr _ | JObj _ => true
  end.

(** [l.id], [l.qty]: the own property of an object ([JSON.parse] keeps the
    last of duplicate keys).  No number, string, boolean or array has an
    [id] or a [qty] property, so these read [undefined] there. *)
Definition get_field (k : string) (l : json) : option json :=
  match l with
  | JObj fs => match find (fun kv => String.eqb (fst kv) k) (rev fs) with
               | Some kv => Some (snd kv)
               | None => None
               end
  | _ => None
  end.

(** The filter of the sanitising step of [llmParseToIds]:
    [l && typeof l.id === 'string' && Number.isFinite(l.qty)]. *)
Definition line_ok (l : json) : bool :=
  truthy l
  && match get_field "id" l with Some (JStr _) => true | _ => false end
  && match get_field "qty" l with Some (JNum (JFinite _)) => true | _ => false end.

(** Its map: [{ id: l.id.trim(), qty: Math.max(1, Math.floor(l.qty)) }]
    (the default branches are not reached after [line_ok]). *)
Definition sanitize_line (l : json) : text * Z :=
  (match get_field "id" l with Some (JStr s) => trim s | _ => [] end,
   match get_field "qty" l with
   | Some (JNum (JFinite q)) => Z.max 1 (Qfloor q)
   | _ => 1
   end).

Definition sanitize_lines (lines : list json) : list (text * Z) :=
  map sanitize_line (filter line_ok lines).

(** A sanitised line written back as the JSON object [{id, qty}]. *)
Definition line_to_json (l : text * Z) : json :=
  JObj [("id", JStr (fst l)); ("qty", JNum (JFinite (inject_Z (snd l))))]%string.

(* ------------------------------------------------------------------ *)
(** ** JavaScript [Map]s with SameValueZero keys *)

Section JSMap.
Context {K V : Type} (keq : K -> K -> bool).

Fixpoint jm_get (k : K) (m : list (K * V)) : option V :=
  match m with
  | [] => None
  | (k', v) :: m' => if keq k' k then Some v else jm_get k m'
  end.

(** [set]: in place for a present key, else appended. *)
Fixpoint jm_set (k : K) (v : V) (m : list (K * V)) : list (K * V) :=
  match m with
  | [] => [(k, v)]
  | (k', v') :: m' => if keq k' k then (k', v) :: m' else (k', v') :: jm_set k v m'
  end.

(** [new Map(entries)]. *)
Definition jm_of_entries (es : list (K * V)) : list (K * V) :=
  fold_left (fun m kv => jm_set (fst kv) (snd kv) m) es [].

End JSMap.

(** [===] on [string | undefined]. *)
Definition opt_text_eqb (a b : option text) : bool :=
  match a, b with
  | Some x, Some y => text_eqb x y
  | None, None => true
  | _, _ => false
  end.

(* ------------------------------------------------------------------ *)
(** ** [MENU_CATALOG] *)

(** [Number.prototype.toString(36)] of a non-negative integer. *)
Definition digit36 (d : nat) : char :=
  if Nat.ltb d 10 then 48 + Z.of_nat d else 87 + Z.of_nat d.

Fixpoint to36_aux (fuel n : nat) : text :=
  match fuel with
  | O => []
  | S f =>
      if Nat.ltb n 36 then [digit36 n]
      else to36_aux f (n / 36) ++ [digit36 (n mod 36)]
  end.

Definition toString36 (n : nat) : text := to36_aux (S n) n.

(** [parseInt(s, 36)] of a run of lowercase base-36 digits. *)
Definition digit36_val (c : char) : Z := if c <=? 57 then c - 48 else c - 87.

Definition parseInt36 (s : text) : Z :=
  fold_left (fun acc c => acc * 36 + digit36_val c) s 0.

Record cat_entry := CatEntry {
  cid : text;              (* ['M' + i.toString(36)] *)
  cname : option text;     (* [it.name] *)
  cta : text;              (* [it.tamilName || ''] *)
  cprice : Z               (* [it.price] *)
}.

(** [DEFAULT_MENU_ITEMS.map((it, i) => ...)]. *)
Fixpoint catalog_from (i : nat) (items : list menu_item) : list cat_entry :=
  match items with
  | [] => []
  | it :: items' =>
      CatEntry (77 :: toString36 i) (name it) (or_empty (tamilName it)) (price it)
        :: catalog_from (S i) items'
  end.

Definition catalog_list (items : list menu_item) : list cat_entry :=
  catalog_from 0 items.

(** [byId = new Map(list.map(x => [x.id, x]))]. *)
Definition catalog_byId (items : list menu_item) : list (text * cat_entry) :=
  jm_of_entries text_eqb (map (fun x => (cid x, x)) (catalog_list items)).

(* ------------------------------------------------------------------ *)
(** ** The bill of [generateBillFromVoice] *)

(** The bill computes with JavaScript numbers, IEEE doubles: [agg] holds
    doubles, and [parsed.lines] carries its quantities as doubles. *)

(** A price literal of the menu ([price: 30]) as a JavaScript number: the
    double nearest to the integer. *)
Definition js_of_Z (z : Z) : float :=
  FloatOps.SF2Prim (SpecFloat.binary_normalize 53 1024 z 0 false).

(** [x || 0] on a number: [0], [-0] and NaN are falsy. *)
Definition or_zero (x : float) : float :=
  if PrimFloat.is_nan x || PrimFloat.eqb x 0%float then 0%float else x.

(** The [agg] loop over [parsed.lines]:
    [agg.set(k, (agg.get(k) || 0) + qty)]. *)
Definition agg_step (byId : list (text * cat_entry))
  (agg : list (option text * float)) (l : text * float) : list (option text * float) :=
  match jm_get text_eqb (fst l) byId with
  | None => agg                                         (* continue *)
  | Some cat =>
      let k := cname cat in
      jm_set opt_text_eqb k
        (match jm_get opt_text_eqb k agg with Some v => or_zero v | None => 0%float end
         + snd l)%float agg
  end.

Definition aggregate (items : list menu_item) (lines : list (text * float))
  : list (option text * float) :=
  fold_left (agg_step (catalog_byId items)) lines [].

Record bill_item := BillItem {
  biName : option text; biQty : float; biUnit : float; biTotal : float }.

(** The [items] loop over [agg.entries()]:
    [totalPrice = unitPrice * quantity]. *)
Definition bill_items (menu : list menu_item) (agg : list (option text * float))
  : list bill_item :=
  flat_map (fun kq =>
              match find (fun m => opt_text_eqb (name m) (fst kq)) menu with
              | None => []
              | Some mi =>
                  [BillItem (fst kq) (snd kq) (js_of_Z (price mi))
                     (js_of_Z (price mi) * snd kq)%float]
              end) agg.

(** [items.reduce((sum, it) => sum + it.totalPrice, 0)]. *)
Definition subtotal_of (items : list bill_item) : float :=
  fold_left (fun s it => s + biTotal it)%float items 0%float.

Inductive bill_response : Type :=
| Resp400                                 (* Voice input required *)
| Resp422                                 (* Unrecognized order *)
| Resp201 (items : list bill_item) (subtotal tax total : float).

(** [generateBillFromVoice] with [mergedMenuItems = DEFAULT_MENU_ITEMS =
    menu] and [parsed] the value the cache or [llmParseToIds] gave for the
    input ([None] for [null]); the bill's id, time stamp and the store are
    left out. *)
Definition generateBillFromVoice (menu : list menu_item) (voiceInput : jsval)
  (parsed : option (list (text * float))) : bill_response :=
  match voiceInput with
  | JSString s =>
      match trim s with
      | [] => Resp400
      | _ =>
          match parsed with
          | None | Some [] => Resp422
          | Some lines =>
              let items := bill_items menu (aggregate menu lines) in
              let subtotal := subtotal_of items in
              let tax := 0%float in
              Resp201 items subtotal tax (subtotal + tax)%float
          end
      end
  | _ => Resp400
  end.

(** [DEFAULT_MENU_ITEMS] of the second module ([unit] and [category] are
    not read by the code modelled here). *)
Definition DEFAULT_MENU_ITEMS : list menu_item :=
  [ mi "Plain Dosa" "பிளைன் தோசை" 30;
    mi "Kal Dosa (2 pcs)" "கல் தோசை (2)" 40;
    mi "Set Dosa (1 pcs)" "செட் தோசை" 40;
    mi "Ghee Dosa" "நெய் தோசை" 50;
    mi "Masala Dosa" "மசாலா தோசை" 60;
    mi "Ghee Masala Dosa" "நெய் மசாலா தோசை" 80;
    mi "Onion Dosa" "வெங்காய தோசை" 50;
    mi "Onion Uthappam" "வெங்காய ஊத்தாப்பம்" 60;
    mi "Egg Dosa" "முட்டை தோசை" 50;
    mi "Egg Masala Dosa" "முட்டை மசாலா தோசை" 80;
    mi "Podi Dosa" "பொடி தோசை" 50;
    mi "Masala Podi Dosa" "மசாலா பொடி தோசை" 60;
    mi "Ghee Podi Dosa" "நெய் பொடி தோசை" 70;
    mi "Chicken Dosa" "சிக்கன் தோசை" 80;
    mi "Chicken Keema Dosa" "சிக்கன் கீமா தோசை" 100;
    mi "Liver Dosa" "கல்லீரல் தோசை" 100;
    mi "Chapathi (2 pcs)" "சப்பாத்தி" 35;
    mi "Egg Chapathi" "முட்டை சப்பாத்தி" 40;
    mi "Parotta (2 pcs)" "பரோட்டா" 40;
    mi "Egg Parotta" "முட்டை பரோட்டா" 40;
    mi "Veg Kothu Parotta" "காய்கறி கொத்து பரோட்டா" 60;
    mi "Egg Kothu Parotta" "முட்டை கொத்து பரோட்டா" 60;
    mi "Chicken Kothu Parotta" "சிக்கன் கொத்து பரோட்டா" 100;
    mi "Liver Kothu Parotta" "கல்லீரல் கொத்து பரோட்டா" 120;
    mi "Idly (4 pcs)" "இட்லி" 40;
    mi "Podi Idly" "பொடி இட்லி" 60;
    mi "Onion Idly" "வெங்காய இட்லி" 60;
    mi "Methu Vada" "மேது வடை" 10;
    mi "Omelette" "ஆம்லெட்" 20;
    mi "Double Omelette" "டபுள் ஆம்லெட்" 40;
    mi "Half Boil" "ஹாஃப் போயில்" 20;
    mi "Full Boil" "புல் போயில்" 20;
    mi "Kalakki" "கலகி" 40;
    mi "Egg Pepper" "முட்டை மிளகு" 40;
    mi "Egg Masala" "முட்டை மசாலா" 60;
    mi "Kebab 100 gms" "கெபாப் 100 கிராம்" 60;
    mi "Kebab 250 gms" "கெபாப் 250 கிராம்" 120;
    mi "Veg Fried Rice" "வெஜ் பிரைட் ரைஸ்" 60;
    mi "Egg Fried Rice" "முட்டை பிரைட் ரைஸ்" 70;
    mi "Double Egg Fried Rice" "டபுள் முட்டை பிரைட் ரைஸ்" 80;
    mi "Gobi Fried Rice" "கோபி பிரைட் ரைஸ்" 70;
    mi "Mushroom Fried Rice" "காளான் பிரைட் ரைஸ்" 90;
    mi "Chicken Fried Rice" "சிக்கன் பிரைட் ரைஸ்" 100;
    mi "Paneer Fried Rice" "பனீர் பிரைட் ரைஸ்" 100;
    mi "Pepper Fried Rice" "மிளகு பிரைட் ரைஸ்" 100;
    mi "Liver Fried Rice" "கல்லீரல் பிரைட் ரைஸ்" 120;
    mi "Chicken Biryani" "சிக்கன் பிரியாணி" 120;
    mi "Kuska" "குஸ்கா" 60;
    mi "Gobi Manchurian" "கோபி மஞ்சூரியன்" 60;
    mi "Gobi Chilli" "கோபி சில்லி" 70;
    mi "Gobi Pepper" "கோபி மிளகு" 70;
    mi "Paneer Manchurian" "பனீர் மஞ்சூரியன்" 120;
    mi "Chilli Paneer" "சில்லி பனீர்" 120;
    mi "Pepper Paneer" "மிளகு பனீர்" 120;
    mi "Mushroom Chilli" "காளான் சில்லி" 100;
    mi "Mushroom Manchurian" "காளான் மஞ்சூரியன்" 100;
    mi "Mushroom Pepper" "காளான் மிளகு" 100;
    mi "Chicken Manchurian" "சிக்கன் மஞ்சூரியன்" 120;
    mi "Chilli Chicken" "சில்லி சிக்கன்" 120;
    mi "Pepper Chicken" "மிளகு சிக்கன்" 120;
    mi "Chettinad Chicken" "செட்டிநாடு சிக்கன்" 120;
    mi "Liver Fry" "கல்லீரல் வறுவல்" 50 ].

(* ================================================================== *)
(** * [cosineSimilarity] ([similarity.js]), over IEEE doubles *)

Inductive js_result (A : Type) : Type :=
| Throws (msg : string)
| Returns (v : A).
Arguments Throws {A} msg.
Arguments Returns {A} v.

(** The loop accumulates [dotProduct], [normA] and [normB] in this order,
    each [x += y] being [x = x + y]. *)
Definition cos_acc (acc : float * float * float) (ab : float * float)
  : float * float * float :=
  let '(dot, na, nb) := acc in
  let '(a, b) := ab in
  ((dot + a * b)%float, (na + a * a)%float, (nb + b * b)%float).

Definition cosineSimilarity (vectorA vectorB : list float) : js_result float :=
  if negb (Nat.eqb (List.length vectorA) (List.length vectorB))
  then Throws "Vectors must have the same length"
  else
    let '(dot, na, nb) := fold_left cos_acc (combine vectorA vectorB)
                             (0%float, 0%float, 0%float) in
    let normA := PrimFloat.sqrt na in
    let normB := PrimFloat.sqrt nb in
    if PrimFloat.eqb normA 0%float || PrimFloat.eqb normB 0%float
    then Returns 0%float
    else Returns (dot / (normA * normB))%float.

(* ------------------------------------------------------------------ *)
(** ** Auxiliary definitions of the proofs below *)

Definition space_free_ends_b (s : text) : bool :=
  match s with
  | [] => true
  | c :: _ => negb (is_space c) && negb (is_space (last s 0))
  end.

Fixpoint adj_ok (p : char -> bool) (l : text) : bool :=
  match l with
  | c1 :: ((c2 :: _) as l') => (negb (p c1) || negb (p c2)) && adj_ok p l'
  | _ => true
  end.

Definition is_zero_float (x : float) : Prop := x = 0%float \/ x = (-0)%float.

(* ================================================================== *)
(** * Lemmas *)

Lemma fold_left_inv {A B : Type} (P : A -> Prop) (f : A -> B -> A) :
  forall l a, P a -> (forall a b, P a -> P (f a b)) -> P (fold_left f l a).
Proof.
  induction l as [|b l IH]; intros a Ha Hf; simpl; auto.
Qed.

(** Every property that [step] preserves holds of the final state. *)
Lemma scan_inv (V : variant) (t : text) (Q : pstate -> Prop) :
  Q (PState [] []) ->
  (forall k st idx, Q st -> Q (step V t k st idx)) ->
  Q (scan V t).
Proof.
  intros H0 Hs. unfold scan.
  apply fold_left_inv; [exact H0|]. intros st kp Hst.
  unfold scan_alias. apply fold_left_inv; [exact Hst|]. intros st' p Hst'.
  unfold scan_pattern. apply fold_left_inv; [exact Hst'|]. intros st'' se H''.
  apply Hs; exact H''.
Qed.

Section DetectLemmas.
Variables (t : text) (i : nat) (used : list range).

Lemma tier1_unused q :
  tier1 t i used = Some q -> isUnused used (qstart q) (qend q) = true.
Proof.
  unfold tier1. destruct (before_digits _) as [[len0 ds]|]; [|discriminate].
  destruct ((0 <? parseInt10 ds) && _) eqn:E; [|discriminate].
  intros H; inversion H; subst; simpl.
  apply andb_true_iff in E; tauto.
Qed.

Lemma tier2_loop_unused ws q :
  tier2_loop t i used ws = Some q -> isUnused used (qstart q) (qend q) = true.
Proof.
  induction ws as [|w ws IH]; intros H; cbn [tier2_loop] in H; [discriminate|].
  destruct (before_word w (beforeTextFull t i)) as [len0|]; [|exact (IH H)].
  destruct (isUnused used (Z.of_nat i - Z.of_nat len0) (Z.of_nat i)) eqn:E;
    [|exact (IH H)].
  inversion H; subst; exact E.
Qed.

Lemma tier3_unused q :
  tier3 t i used = Some q -> isUnused used (qstart q) (qend q) = true.
Proof.
  unfold tier3. destruct (after_digits _) as [[idx ds]|]; [|discriminate].
  destruct ((0 <? parseInt10 ds) && _) eqn:E; [|discriminate].
  intros H; inversion H; subst; simpl.
  apply andb_true_iff in E; tauto.
Qed.

Lemma tier4_loop_unused ws q :
  tier4_loop t i used ws = Some q -> isUnused used (qstart q) (qend q) = true.
Proof.
  induction ws as [|w ws IH]; intros H; cbn [tier4_loop] in H; [discriminate|].
  destruct (after_word w (afterTextFull t i)) as [len0|]; [|exact (IH H)].
  destruct (isUnused used (Z.of_nat i) (Z.of_nat i + Z.of_nat len0)) eqn:E;
    [|exact (IH H)].
  inversion H; subst; exact E.
Qed.

(** [detectQuantityNear] returns the default or a span that is unused. *)
Lemma detect_default_or_unused :
  detectQuantityNear t i used = default_q
  \/ isUnused used (qstart (detectQuantityNear t i used))
                   (qend (detectQuantityNear t i used)) = true.
Proof.
  unfold detectQuantityNear.
  destruct (tier1 t i used) eqn:E1; [right; apply tier1_unused; exact E1|].
  destruct (tier2 t i used) eqn:E2; [right; exact (tier2_loop_unused _ _ E2)|].
  destruct (tier3 t i used) eqn:E3; [right; apply tier3_unused; exact E3|].
  destruct (tier4 t i used) eqn:E4; [right; exact (tier4_loop_unused _ _ E4)|].
  left; reflexivity.
Qed.

End DetectLemmas.

Lemma isUnused_apart used s e :
  isUnused used s e = true -> Forall (fun r => apart r (s, e)) used.
Proof.
  unfold isUnused. intros H. apply Forall_forall. intros r Hr.
  rewrite forallb_forall in H. specialize (H r Hr).
  apply orb_true_iff in H. unfold apart; simpl.
  destruct H as [H|H]; [right|left]; lia.
Qed.

Lemma pairwise_apart_snoc l r :
  pairwise_apart l -> Forall (fun r' => apart r' r) l -> pairwise_apart (l ++ [r]).
Proof.
  intros Hl Hf i j r1 r2 Hij H1 H2.
  rewrite Forall_forall in Hf.
  destruct (Nat.lt_ge_cases i (List.length l)) as [Hi|Hi];
  destruct (Nat.lt_ge_cases j (List.length l)) as [Hj|Hj].
  - rewrite nth_error_app1 in H1, H2 by exact (ltac:(assumption)).
    exact (Hl i j r1 r2 Hij H1 H2).
  - rewrite nth_error_app1 in H1 by assumption.
    rewrite nth_error_app2 in H2 by assumption.
    destruct (j - List.length l)%nat as [|n]; simpl in H2;
      [|destruct n; discriminate].
    inversion H2; subst. apply Hf. eapply nth_error_In; eassumption.
  - rewrite nth_error_app2 in H1 by assumption.
    rewrite nth_error_app1 in H2 by assumption.
    destruct (i - List.length l)%nat as [|n]; simpl in H1;
      [|destruct n; discriminate].
    inversion H1; subst.
    assert (Ha : apart r2 r1) by (apply Hf; eapply nth_error_In; eassumption).
    unfold apart in *; lia.
  - rewrite nth_error_app2 in H1, H2 by assumption.
    destruct (i - List.length l)%nat eqn:Ei; [|destruct n; discriminate].
    destruct (j - List.length l)%nat eqn:Ej; [|destruct n; discriminate].
    lia.
Qed.

Lemma scan_used_apart V t : pairwise_apart (usedRanges (scan V t)).
Proof.
  apply scan_inv.
  - intros i j r1 r2 _ H1. destruct i; discriminate.
  - intros k st idx Hst. unfold step.
    destruct (shouldSkip V t k idx); [exact Hst|]. simpl.
    destruct ((0 <=? qstart _) && (qstart _ <? qend _)) eqn:Ep; [|exact Hst].
    apply pairwise_apart_snoc; [exact Hst|].
    destruct (detect_default_or_unused t idx (usedRanges st)) as [Hd|Hu].
    + rewrite Hd in Ep. discriminate.
    + apply isUnused_apart; exact Hu.
Qed.

(* ------------------------------------------------------------------ *)
(** ** Soundness of the window analysis *)

Lemma text_eqb_eq a b : text_eqb a b = true <-> a = b.
Proof.
  revert b; induction a as [|x a IH]; intros [|y b]; simpl;
    try (split; congruence).
  rewrite andb_true_iff, Z.eqb_eq, IH. split; [intros [-> ->]; reflexivity|].
  intros H; inversion H; auto.
Qed.

Section AbsSound.
Variables (K : list (list char)) (uflag : bool) (t : text) (s : nat).
Hypothesis HK : forall j cs, nth_error K j = Some cs ->
  exists c, nth_error t (s + j) = Some c /\ In c cs.

Definition covered (g : list nat * bool) (e : nat) : Prop :=
  (exists k', e = (s + k')%nat /\ In k' (fst g)) \/ snd g = true.

Lemma aone_sound p k e :
  In e (one t p (s + k)) -> covered (aone K p k) e.
Proof.
  unfold one, at_, aone, covered.
  destruct (nth_error t (s + k)) as [c|] eqn:Et; [|simpl; tauto].
  destruct (p c) eqn:Ep; [|simpl; tauto].
  simpl; intros [<-|[]].
  destruct (nth_error K k) as [cs|] eqn:EK; [|right; reflexivity].
  destruct (HK k cs EK) as (c' & Hc' & Hin). rewrite Et in Hc'.
  inversion Hc'; subst c'. left. exists (S k). split; [lia|].
  assert (Hx : existsb p cs = true) by (apply existsb_exists; eauto).
  rewrite Hx; simpl; auto.
Qed.

Lemma astar_sound (f : nat -> list nat) (g : nat -> list nat * bool) :
  (forall k e, In e (f (s + k)%nat) -> covered (g k) e) ->
  forall fa fc k e, In e (star_m fc f (s + k)) -> covered (astar fa g k) e.
Proof.
  intros Hg fa. induction fa as [|n IH]; intros fc k e He.
  - right; reflexivity.
  - destruct fc as [|n']; simpl in He.
    + destruct He as [<-|[]]. left. exists k. split; [reflexivity|].
      simpl. apply in_or_app; right; left; reflexivity.
    + apply in_app_or in He. destruct He as [He|[<-|[]]].
      * apply in_flat_map in He. destruct He as (j & Hj & He).
        destruct (Nat.ltb (s + k) j) eqn:Elt; [|destruct He].
        destruct (Hg k j Hj) as [(k1 & -> & Hk1)|Hf].
        -- assert (Hlt : Nat.ltb k k1 = true)
             by (apply Nat.ltb_lt; apply Nat.ltb_lt in Elt; lia).
           destruct (IH n' k1 e He) as [(k' & -> & Hk')|Hf'].
           ++ left. exists k'. split; [reflexivity|]. simpl.
              apply in_or_app; left. apply in_flat_map.
              exists (astar n g k1). split; [|exact Hk'].
              apply in_map_iff. exists k1. rewrite Hlt. split; auto.
           ++ right. simpl. apply orb_true_iff; right.
              apply existsb_exists. exists (astar n g k1). split; [|exact Hf'].
              apply in_map_iff. exists k1. rewrite Hlt. split; auto.
        -- right. simpl. rewrite Hf. reflexivity.
      * left. exists k. split; [reflexivity|]. simpl.
        apply in_or_app; right; left; reflexivity.
Qed.

Lemma am_sound r : forall k e, In e (m t uflag r (s + k)) -> covered (am K uflag r k) e.
Proof.
  induction r as [| c | | | | | | a IHa b IHb | a IHa b IHb | a IHa | a IHa];
    intros k e He; cbn [m am] in He |- *.
  - destruct He as [<-|[]]. left. exists k. simpl; auto.
  - apply aone_sound; exact He.
  - apply aone_sound; exact He.
  - apply aone_sound; exact He.
  - apply aone_sound; exact He.
  - destruct (xorb _ _); [|destruct He]. destruct He as [<-|[]].
    left. exists k. simpl; auto.
  - destruct (Nat.eqb (s + k) (List.length t)) eqn:Ee; [|destruct He].
    destruct He as [<-|[]]. apply Nat.eqb_eq in Ee.
    destruct (nth_error K k) as [cs|] eqn:EK.
    + exfalso. destruct (HK k cs EK) as (c & Hc & _).
      assert (Hn : nth_error t (s + k) = None) by (apply nth_error_None; lia).
      congruence.
    + left. exists k. simpl; auto.
  - apply in_flat_map in He. destruct He as (j & Hj & He).
    destruct (IHa k j Hj) as [(k1 & -> & Hk1)|Hf].
    + destruct (IHb k1 e He) as [(k2 & -> & Hk2)|Hf].
      * left. exists k2. split; [reflexivity|]. simpl. apply in_flat_map.
        exists (am K uflag b k1). split; [apply in_map; exact Hk1|exact Hk2].
      * right. simpl. apply orb_true_iff; right. apply existsb_exists.
        exists (am K uflag b k1). split; [apply in_map; exact Hk1|exact Hf].
    + right. simpl. rewrite Hf. reflexivity.
  - apply in_app_or in He. destruct He as [He|He].
    + destruct (IHa k e He) as [(k' & -> & H')|Hf].
      * left. exists k'. split; [reflexivity|]. simpl. apply in_or_app; auto.
      * right. simpl. rewrite Hf. reflexivity.
    + destruct (IHb k e He) as [(k' & -> & H')|Hf].
      * left. exists k'. split; [reflexivity|]. simpl. apply in_or_app; auto.
      * right. simpl. rewrite Hf. apply orb_true_r.
  - apply in_app_or in He. destruct He as [He|[<-|[]]].
    + apply filter_In in He. destruct He as [He _].
      destruct (IHa k e He) as [(k' & -> & H')|Hf].
      * left. exists k'. split; [reflexivity|]. simpl. apply in_or_app; auto.
      * right. simpl. exact Hf.
    + left. exists k. split; [reflexivity|]. simpl. apply in_or_app; right; left; auto.
  - eapply astar_sound; [exact IHa|exact He].
Qed.

Lemma no_match_here_sound r :
  no_match_here K uflag r = true -> m t uflag r s = [].
Proof.
  intros H. destruct (m t uflag r s) as [|e es] eqn:Em; [reflexivity|exfalso].
  assert (He : In e (m t uflag r (s + 0))) by (rewrite Nat.add_0_r, Em; left; auto).
  destruct (am_sound r 0 e He) as [(k' & _ & Hk)|Hf];
    unfold no_match_here in H; destruct (am K uflag r 0) as [[|x xs] [|]];
    simpl in *; try discriminate; destruct Hk.
Qed.

End AbsSound.

(* ------------------------------------------------------------------ *)
(** ** The after-the-item tiers at an alias match *)

Lemma search_from_match fuel r t uf from s e :
  search_from t uf fuel r from = Some (s, e) -> m t uf r s <> [].
Proof.
  revert from; induction fuel as [|n IH]; intros from H; simpl in H; [discriminate|].
  unfold match_at in H. destruct (m t uf r from) as [|j js] eqn:Em.
  - exact (IH _ H).
  - inversion H; subst. rewrite Em. discriminate.
Qed.

Lemma exec_match t uf r from s e :
  exec t uf r from = Some (s, e) -> m t uf r s <> [].
Proof.
  unfold exec. destruct (Nat.ltb _ _); [discriminate|]. apply search_from_match.
Qed.

(** Every match the [while] loop visits is a match of the pattern. *)
Lemma exec_all_match t p s e :
  In (s, e) (exec_all t p) -> m t (pu p) (pre p) s <> [].
Proof.
  unfold exec_all. generalize 0%nat. generalize (S (List.length t)).
  intros fuel; induction fuel as [|n IH]; intros from H; simpl in H; [destruct H|].
  destruct (exec t (pu p) (pre p) from) as [[s' e']|] eqn:Ex; [|destruct H].
  destruct (Nat.ltb s' e').
  - destruct H as [H|H]; [inversion H; subst; eapply exec_match; eexact Ex|].
    exact (IH _ H).
  - destruct H as [H|[]]. inversion H; subst. eapply exec_match; eexact Ex.
Qed.

Lemma nth_error_firstn_some {A} n (l : list A) j x :
  nth_error (firstn n l) j = Some x -> nth_error l j = Some x.
Proof.
  revert l j; induction n as [|n IH]; intros l j H; [destruct j; discriminate|].
  destruct l as [|y l]; [destruct j; discriminate|].
  destruct j; simpl in *; [exact H|exact (IH _ _ H)].
Qed.

Lemma nth_error_slice a b (t : text) j c :
  nth_error (slice a b t) j = Some c -> nth_error t (a + j) = Some c.
Proof.
  unfold slice. intros H. apply nth_error_firstn_some in H.
  revert t H; induction a as [|a IH]; intros t H; [exact H|].
  destruct t as [|x t]; [destruct j; discriminate|]. exact (IH t H).
Qed.

Lemma space_or_digit_in c :
  is_space c || is_digit c = true -> In c space_digit_chars.
Proof.
  unfold is_space, is_digit. intros H.
  repeat rewrite orb_true_iff in H. repeat rewrite andb_true_iff in H.
  repeat rewrite Z.leb_le in H. repeat rewrite Z.eqb_eq in H.
  simpl. lia.
Qed.

Lemma take_while_nil_head p (l : text) :
  take_while p l = [] -> l = [] \/ exists c l', l = c :: l' /\ p c = false.
Proof.
  destruct l as [|c l]; [left; reflexivity|]. simpl.
  destruct (p c) eqn:E; [discriminate|]. intros _. right; eauto.
Qed.

Lemma take_while_cons_head p (l : text) c r :
  take_while p l = c :: r -> exists l', l = c :: l' /\ p c = true.
Proof.
  destruct l as [|x l]; simpl; [discriminate|].
  destruct (p x) eqn:E; [|discriminate]. intros H; inversion H; subst; eauto.
Qed.

(** What tier 3 needs: a whitespace or a digit at the match start. *)
Lemma after_digits_head after idx ds :
  after_digits after = Some (idx, ds) ->
  exists c rest, after = c :: rest /\ In c space_digit_chars.
Proof.
  unfold after_digits. intros H.
  destruct (take_while is_space after) as [|c r] eqn:Esp.
  - simpl in H. destruct (take_while is_digit after) as [|c r] eqn:Ed; [discriminate|].
    destruct (take_while_cons_head _ _ _ _ Ed) as (l' & -> & Hd).
    exists c, l'. split; [reflexivity|]. apply space_or_digit_in.
    rewrite Hd; apply orb_true_r.
  - destruct (take_while_cons_head _ _ _ _ Esp) as (l' & -> & Hs).
    exists c, l'. split; [reflexivity|]. apply space_or_digit_in.
    rewrite Hs; reflexivity.
Qed.

(** What tier 4 needs: a whitespace at the match start, or the word. *)
Lemma after_word_head w after len0 :
  after_word w after = Some len0 ->
  (exists c rest, after = c :: rest /\ In c space_digit_chars)
  \/ firstn (List.length w) after = w.
Proof.
  unfold after_word.
  destruct (text_eqb _ w) eqn:E; [|discriminate]. intros _.
  apply text_eqb_eq in E.
  destruct (take_while is_space after) as [|c r] eqn:Esp.
  - right. exact E.
  - left. destruct (take_while_cons_head _ _ _ _ Esp) as (l' & -> & Hs).
    exists c, l'. split; [reflexivity|]. apply space_or_digit_in.
    rewrite Hs; reflexivity.
Qed.

Lemma tier4_loop_word t i used ws q :
  tier4_loop t i used ws = Some q ->
  exists w len0, In w ws /\ after_word w (afterTextFull t i) = Some len0.
Proof.
  induction ws as [|w ws IH]; intros H; cbn [tier4_loop] in H; [discriminate|].
  destruct (after_word w (afterTextFull t i)) as [len0|] eqn:Ea.
  - exists w, len0. split; [left; reflexivity|exact Ea].
  - destruct (IH H) as (w' & l' & Hin & Hw). exists w', l'. split; [right; exact Hin|exact Hw].
Qed.

Lemma tamilNumberWords_nonempty : forallb (fun w => negb (Nat.eqb (List.length w) 0)) tamilNumberWords = true.
Proof. vm_compute. reflexivity. Qed.

(** At a position where an alias pattern that passes the window analysis
    matches, neither tier 3 nor tier 4 of [detectQuantityNear] fires. *)
Lemma after_tiers_silent t (p : pattern) s e used :
  cannot_start_after_tier p = true ->
  In (s, e) (exec_all t p) ->
  tier3 t s used = None /\ tier4 t s used = None.
Proof.
  intros Hp Hm. apply exec_all_match in Hm.
  unfold cannot_start_after_tier in Hp. rewrite forallb_forall in Hp.
  assert (Hsd : forall c rest, afterTextFull t s = c :: rest ->
                In c space_digit_chars -> False).
  { intros c rest Ha Hc. apply Hm.
    apply (no_match_here_sound [space_digit_chars] (pu p) t s).
    - intros j cs Hj. destruct j as [|j]; [|destruct j; discriminate].
      simpl in Hj; inversion Hj; subst. exists c. split; [|exact Hc].
      apply (nth_error_slice s (windowEnd t s) t 0).
      unfold afterTextFull in Ha. rewrite Ha. reflexivity.
    - apply Hp. left; reflexivity. }
  split.
  - unfold tier3. destruct (after_digits (afterTextFull t s)) as [[idx ds]|] eqn:Ea;
      [|reflexivity].
    exfalso. destruct (after_digits_head _ _ _ Ea) as (c & rest & Ha & Hc).
    exact (Hsd c rest Ha Hc).
  - unfold tier4. destruct (tier4_loop t s used tamilNumberWords) as [q|] eqn:E4;
      [|reflexivity].
    exfalso. destruct (tier4_loop_word _ _ _ _ _ E4) as (w & len0 & Hw & Ha).
    destruct (after_word_head _ _ _ Ha) as [(c & rest & Hc1 & Hc2)|Hpre].
    + exact (Hsd c rest Hc1 Hc2).
    + apply Hm.
      apply (no_match_here_sound (map (fun c => [c]) w) (pu p) t s).
      * intros j cs Hj. rewrite nth_error_map in Hj.
        destruct (nth_error w j) as [c|] eqn:Ewj; simpl in Hj; [|discriminate].
        inversion Hj; subst. exists c. split; [|left; reflexivity].
        apply (nth_error_slice s (windowEnd t s) t j).
        fold (afterTextFull t s). rewrite <- Hpre in Ewj.
        eapply nth_error_firstn_some; exact Ewj.
      * apply Hp. right. apply in_map. exact Hw.
Qed.

Lemma table_sim_cannot_start : table_cannot_start getSynonymPatterns_sim = true.
Proof. vm_compute. reflexivity. Qed.

Lemma table_bc_cannot_start : table_cannot_start getSynonymPatterns_bc = true.
Proof. vm_compute. reflexivity. Qed.

Lemma table_pattern_cannot_start tbl k pats p :
  table_cannot_start tbl = true -> In (k, pats) tbl -> In p pats ->
  cannot_start_after_tier p = true.
Proof.
  unfold table_cannot_start. rewrite forallb_forall. intros H Hk Hp.
  specialize (H _ Hk). simpl in H. rewrite forallb_forall in H. exact (H p Hp).
Qed.

Lemma variants_cannot_start V :
  V = sim_variant \/ V = bc_variant -> table_cannot_start (synonymPatterns V) = true.
Proof.
  intros [-> | ->]; [exact table_sim_cannot_start|exact table_bc_cannot_start].
Qed.

(* ------------------------------------------------------------------ *)
(** ** Tier 2 after a digit, and positive quantities *)

Lemma tamilNumberWords_end_not_digit :
  forallb (fun w => match rev w with c :: _ => negb (is_digit c) | [] => false end)
          tamilNumberWords = true.
Proof. vm_compute. reflexivity. Qed.

Lemma tamilNumberWords_values :
  forallb (fun w => match map_get_num w TAMIL_NUMBER_MAP with
                    | Some q => 1 <=? q | None => false end) tamilNumberWords = true.
Proof. vm_compute. reflexivity. Qed.

Lemma before_word_after_digits before len0 ds w :
  before_digits before = Some (len0, ds) ->
  In w tamilNumberWords -> before_word w before = None.
Proof.
  intros Hd Hw. unfold before_digits in Hd. unfold before_word.
  set (rest := skipn (List.length (take_while is_space (rev before))) (rev before)) in *.
  destruct (take_while is_digit rest) as [|c r] eqn:Ed; [discriminate|].
  destruct (take_while_cons_head _ _ _ _ Ed) as (l' & Hrest & Hc).
  destruct (text_eqb (firstn (List.length w) rest) (rev w)) eqn:E; [|reflexivity].
  exfalso. apply text_eqb_eq in E.
  pose proof tamilNumberWords_end_not_digit as Hend.
  rewrite forallb_forall in Hend. specialize (Hend w Hw).
  rewrite Hrest in E. rewrite <- E in Hend.
  destruct (List.length w) as [|n] eqn:Hl; simpl in Hend; [discriminate|].
  rewrite Hc in Hend. discriminate.
Qed.

Lemma tier2_loop_none t i used ws :
  (forall w, In w ws -> before_word w (beforeTextFull t i) = None) ->
  tier2_loop t i used ws = None.
Proof.
  induction ws as [|w ws IH]; intros H; cbn [tier2_loop]; [reflexivity|].
  rewrite (H w (or_introl eq_refl)). apply IH. intros w' Hw'. apply H; right; exact Hw'.
Qed.

Lemma tier2_loop_pos t i used ws q :
  (forall w, In w ws -> match map_get_num w TAMIL_NUMBER_MAP with
                        | Some q => 1 <=? q | None => false end = true) ->
  tier2_loop t i used ws = Some q -> 1 <= quantity q.
Proof.
  induction ws as [|w ws IH]; intros Hv H; cbn [tier2_loop] in H; [discriminate|].
  assert (IH' := fun H' => IH (fun w' Hw' => Hv w' (or_intror Hw')) H').
  destruct (before_word w (beforeTextFull t i)) as [len0|]; [|exact (IH' H)].
  destruct (isUnused _ _ _); [|exact (IH' H)].
  specialize (Hv w (or_introl eq_refl)).
  destruct (map_get_num w TAMIL_NUMBER_MAP) as [v|]; [|discriminate].
  injection H as <-. cbn [quantity]. apply Z.leb_le; exact Hv.
Qed.

Lemma tier4_loop_pos t i used ws q :
  (forall w, In w ws -> match map_get_num w TAMIL_NUMBER_MAP with
                        | Some q => 1 <=? q | None => false end = true) ->
  tier4_loop t i used ws = Some q -> 1 <= quantity q.
Proof.
  induction ws as [|w ws IH]; intros Hv H; cbn [tier4_loop] in H; [discriminate|].
  assert (IH' := fun H' => IH (fun w' Hw' => Hv w' (or_intror Hw')) H').
  destruct (after_word w (afterTextFull t i)) as [len0|]; [|exact (IH' H)].
  destruct (isUnused _ _ _); [|exact (IH' H)].
  specialize (Hv w (or_introl eq_refl)).
  destruct (map_get_num w TAMIL_NUMBER_MAP) as [v|]; [|discriminate].
  injection H as <-. cbn [quantity]. apply Z.leb_le; exact Hv.
Qed.

Lemma detect_pos t i used : 1 <= quantity (detectQuantityNear t i used).
Proof.
  assert (Hv : forall w, In w tamilNumberWords ->
            match map_get_num w TAMIL_NUMBER_MAP with
            | Some q => 1 <=? q | None => false end = true)
    by (apply forallb_forall; exact tamilNumberWords_values).
  unfold detectQuantityNear.
  destruct (tier1 t i used) as [q|] eqn:E1.
  { unfold tier1 in E1. destruct (before_digits _) as [[len0 ds]|]; [|discriminate].
    destruct ((0 <? parseInt10 ds) && _) eqn:E; [|discriminate].
    inversion E1; subst; simpl. apply andb_true_iff in E. destruct E as [E _].
    apply Z.ltb_lt in E. lia. }
  destruct (tier2 t i used) as [q|] eqn:E2; [exact (tier2_loop_pos _ _ _ _ _ Hv E2)|].
  destruct (tier3 t i used) as [q|] eqn:E3.
  { unfold tier3 in E3. destruct (after_digits _) as [[idx ds]|]; [|discriminate].
    destruct ((0 <? parseInt10 ds) && _) eqn:E; [|discriminate].
    inversion E3; subst; simpl. apply andb_true_iff in E. destruct E as [E _].
    apply Z.ltb_lt in E. lia. }
  destruct (tier4 t i used) as [q|] eqn:E4; [exact (tier4_loop_pos _ _ _ _ _ Hv E4)|].
  simpl; lia.
Qed.

(* ------------------------------------------------------------------ *)
(** ** [orderMap] *)

Lemma omap_get_set k k' v mp :
  omap_get k (omap_set k' v mp) = if String.eqb k' k then Some v else omap_get k mp.
Proof.
  induction mp as [|[k1 v1] mp IH]; simpl.
  - destruct (String.eqb k' k); reflexivity.
  - destruct (String.eqb_spec k1 k') as [->|Hne]; simpl.
    + destruct (String.eqb k' k); reflexivity.
    + rewrite IH. destruct (String.eqb_spec k1 k) as [->|Hne2];
        destruct (String.eqb_spec k' k) as [->|Hne3]; congruence.
Qed.

Lemma omap_set_keys k v mp :
  map fst (omap_set k v mp) = map fst mp
  \/ (map fst (omap_set k v mp) = map fst mp ++ [k] /\ ~ In k (map fst mp)).
Proof.
  induction mp as [|[k1 v1] mp IH]; simpl.
  - right. split; [reflexivity|tauto].
  - destruct (String.eqb_spec k1 k) as [->|Hne]; simpl; [left; reflexivity|].
    destruct IH as [IH|[IH Hn]]; [left; rewrite IH; reflexivity|].
    right. rewrite IH. split; [reflexivity|]. intros [H|H]; [congruence|tauto].
Qed.

Lemma NoDup_snoc (l : list string) k : NoDup l -> ~ In k l -> NoDup (l ++ [k]).
Proof.
  induction l as [|x l IH]; intros Hd Hn; simpl; [constructor; [tauto|constructor]|].
  inversion Hd; subst. constructor.
  - intros H. apply in_app_or in H. destruct H as [H|[H|[]]]; [tauto|].
    subst. apply Hn; left; reflexivity.
  - apply IH; [assumption|]. intros H; apply Hn; right; exact H.
Qed.

Lemma omap_set_in k v mp kv : In kv (omap_set k v mp) -> kv = (k, v) \/ In kv mp.
Proof.
  induction mp as [|[k1 v1] mp IH]; simpl.
  - intros [H|[]]; left; auto.
  - destruct (String.eqb_spec k1 k) as [->|Hne]; simpl.
    + intros [H|H]; [left; auto|right; right; exact H].
    + intros [H|H]; [right; left; exact H|]. destruct (IH H); auto.
Qed.

Lemma omap_get_in k mp v : omap_get k mp = Some v -> In (k, v) mp.
Proof.
  induction mp as [|[k1 v1] mp IH]; simpl; [discriminate|].
  destruct (String.eqb_spec k1 k) as [->|Hne].
  - intros H; inversion H; subst; left; reflexivity.
  - intros H; right; exact (IH H).
Qed.

Lemma scan_keys_nodup V t : NoDup (map fst (orderMap (scan V t))).
Proof.
  apply scan_inv; [constructor|].
  intros k st idx Hst. unfold step.
  destruct (shouldSkip V t k idx); [exact Hst|]. simpl.
  match goal with |- NoDup (map fst (omap_set ?k ?v ?mp)) =>
    destruct (omap_set_keys k v mp) as [E|[E Hn]] end; rewrite E; [exact Hst|].
  apply NoDup_snoc; assumption.
Qed.

Lemma scan_values_pos V t : Forall (fun kv => 1 <= snd kv) (orderMap (scan V t)).
Proof.
  apply scan_inv; [constructor|].
  intros k st idx Hst. unfold step.
  destruct (shouldSkip V t k idx); [exact Hst|]. simpl.
  rewrite Forall_forall in *. intros kv Hkv.
  destruct (omap_set_in _ _ _ _ Hkv) as [->|H]; [|exact (Hst kv H)]. simpl.
  pose proof (detect_pos t idx (usedRanges st)).
  destruct (omap_get k (orderMap st)) as [v|] eqn:Eg; [|lia].
  apply omap_get_in in Eg. specialize (Hst _ Eg). simpl in Hst. lia.
Qed.

Lemma build_lines_pos resolve mp :
  Forall (fun kv => 1 <= snd kv) mp ->
  Forall (fun l => 1 <= lquantity l) (build_lines resolve mp).
Proof.
  induction mp as [|kv mp IH]; intros H; simpl; [constructor|].
  inversion H; subst. apply Forall_app. split; [|exact (IH H3)].
  destruct (resolve (fst kv)); constructor; [simpl; assumption|constructor].
Qed.

(* ------------------------------------------------------------------ *)
(** ** Windows *)

Lemma afterTextFull_slice t i : afterTextFull t i = slice i (i + MAX_AFTER) t.
Proof.
  unfold afterTextFull, windowEnd, slice.
  destruct (Nat.le_ge_cases (List.length t) (i + MAX_AFTER)) as [H|H].
  - rewrite Nat.min_l by exact H.
    rewrite !firstn_all2; [reflexivity| |]; rewrite length_skipn; lia.
  - rewrite Nat.min_r by exact H. reflexivity.
Qed.

Lemma tier2_loop_local t1 t2 i used ws :
  beforeTextFull t1 i = beforeTextFull t2 i ->
  tier2_loop t1 i used ws = tier2_loop t2 i used ws.
Proof.
  intros Hb. induction ws as [|w ws IH]; cbn [tier2_loop]; [reflexivity|].
  rewrite Hb, IH. reflexivity.
Qed.

Lemma tier4_loop_local t1 t2 i used ws :
  afterTextFull t1 i = afterTextFull t2 i ->
  tier4_loop t1 i used ws = tier4_loop t2 i used ws.
Proof.
  intros Ha. induction ws as [|w ws IH]; cbn [tier4_loop]; [reflexivity|].
  rewrite Ha, IH. reflexivity.
Qed.

Lemma length_slice a b (s : text) :
  List.length (slice a b s) = Nat.min (b - a) (List.length s - a).
Proof. unfold slice. rewrite length_firstn, length_skipn. reflexivity. Qed.

Lemma detect_windows_local t1 t2 i used :
  beforeTextFull t1 i = beforeTextFull t2 i ->
  afterTextFull t1 i = afterTextFull t2 i ->
  detectQuantityNear t1 i used = detectQuantityNear t2 i used.
Proof.
  intros Hb Ha. unfold detectQuantityNear, tier1, tier2, tier3, tier4.
  rewrite Hb, Ha, (tier2_loop_local t1 t2 i used _ Hb),
    (tier4_loop_local t1 t2 i used _ Ha).
  reflexivity.
Qed.

Lemma detect_local t1 t2 i used :
  slice (i - MAX_BEFORE) i t1 = slice (i - MAX_BEFORE) i t2 ->
  slice i (i + MAX_AFTER) t1 = slice i (i + MAX_AFTER) t2 ->
  detectQuantityNear t1 i used = detectQuantityNear t2 i used.
Proof.
  intros Hb Ha.
  assert (Hb' : beforeTextFull t1 i = beforeTextFull t2 i) by exact Hb.
  assert (Ha' : afterTextFull t1 i = afterTextFull t2 i)
    by (rewrite !afterTextFull_slice; exact Ha).
  unfold detectQuantityNear, tier1, tier2, tier3, tier4.
  rewrite Hb', Ha', (tier2_loop_local t1 t2 i used _ Hb'),
    (tier4_loop_local t1 t2 i used _ Ha').
  reflexivity.
Qed.

Lemma alias_pattern_cannot_start V k pats p :
  V = sim_variant \/ V = bc_variant ->
  In (k, pats) (synonymPatterns V) -> In p pats ->
  cannot_start_after_tier p = true.
Proof.
  intros HV Hk Hp.
  exact (table_pattern_cannot_start _ _ _ _ (variants_cannot_start V HV) Hk Hp).
Qed.

Lemma before_zero_tier2_none t i used len0 ds :
  before_digits (beforeTextFull t i) = Some (len0, ds) -> tier2 t i used = None.
Proof.
  intros Hd. unfold tier2. apply tier2_loop_none.
  intros w Hw. exact (before_word_after_digits _ _ _ _ Hd Hw).
Qed.

Lemma parse_lines_pos V v menu :
  Forall (fun l => 1 <= lquantity l) (parseOrderWithFuzzyMap V v menu).
Proof.
  unfold parseOrderWithFuzzyMap.
  destruct v as [| | | |s|]; try constructor.
  destruct s as [|c s]; [constructor|].
  destruct (preprocessText (c :: s)); [constructor|].
  apply build_lines_pos, scan_values_pos.
Qed.

Lemma shouldSkip_local V t1 t2 k i :
  slice (i - qualifierWindow V) i t1 = slice (i - qualifierWindow V) i t2 ->
  shouldSkip V t1 k i = shouldSkip V t2 k i.
Proof.
  intros H. unfold shouldSkip. destruct (qualifierSkip V k); [|reflexivity].
  rewrite H. reflexivity.
Qed.

Lemma step_get_same V t k st idx :
  shouldSkip V t k idx = false ->
  omap_get k (orderMap (step V t k st idx)) =
  Some (match omap_get k (orderMap st) with Some v => v | None => 0 end
        + quantity (detectQuantityNear t idx (usedRanges st))).
Proof.
  intros H. unfold step. rewrite H. simpl. rewrite omap_get_set, String.eqb_refl.
  reflexivity.
Qed.

(** Splits a conjunction into its conjuncts (and nothing else). *)
Ltac split_conj := repeat match goal with |- _ /\ _ => split end.

(* ================================================================== *)
(** * The claims *)

(** C1: a qualifier in front of a generic alias does not suppress the
    generic alias in either parser: on the text [egg kothu parotta] with
    the kothu catalogue, the output holds a Veg Kothu Parotta line next to
    the Egg Kothu Parotta line, because [QUALIFIER_SKIP] has no entry for
    Veg Kothu Parotta (it has one for Plain Dosa and for Parotta). *)
Theorem C1_egg_kothu_parotta_two_lines :
  parseOrderWithFuzzyMap bc_variant (JSString (u "egg kothu parotta")) kothu_menu
    = [line_of item_veg_kothu 1; line_of item_egg_kothu 1]
  /\ parseOrderWithFuzzyMap sim_variant (JSString (u "egg kothu parotta")) kothu_menu
    = [line_of item_veg_kothu 1; line_of item_egg_kothu 1].
Proof. split; vm_compute; reflexivity. Qed.

(** C2: a span returned by [detectQuantityNear] (start at least 0) overlaps
    none of the spans already in [usedRanges]; and in the [usedRanges] at
    the end of a parse (either variant, any text), no offset lies in two
    different recorded spans. *)
Theorem C2_consumed_spans_disjoint :
  (forall t i used r x,
     0 <= qstart (detectQuantityNear t i used) -> In r used ->
     ~ (fst r <= x < snd r /\
        qstart (detectQuantityNear t i used) <= x < qend (detectQuantityNear t i used)))
  /\ (forall V t i j r1 r2 x, i <> j ->
        nth_error (usedRanges (scan V t)) i = Some r1 ->
        nth_error (usedRanges (scan V t)) j = Some r2 ->
        ~ (fst r1 <= x < snd r1 /\ fst r2 <= x < snd r2)).
Proof.
  split.
  - intros t i used r x Hs Hr.
    destruct (detect_default_or_unused t i used) as [Hd|Hu].
    + rewrite Hd in Hs. simpl in Hs. lia.
    + unfold isUnused in Hu. rewrite forallb_forall in Hu.
      specialize (Hu r Hr). apply orb_true_iff in Hu.
      destruct Hu as [Hu|Hu]; apply Z.leb_le in Hu; lia.
  - intros V t i j r1 r2 x Hij H1 H2.
    destruct (scan_used_apart V t i j r1 r2 Hij H1 H2); lia.
Qed.

Lemma C2_consumed_spans_disjoint_witness :
  (0 <= qstart (detectQuantityNear (u "2 dosa") 2 [(4, 6)]) /\ In (4, 6) [(4, 6)] /\
   ~ (fst (4, 6) <= 1 < snd (4, 6) /\
      qstart (detectQuantityNear (u "2 dosa") 2 [(4, 6)]) <= 1
      < qend (detectQuantityNear (u "2 dosa") 2 [(4, 6)])))
  /\ ~ (fst (0, 2) <= 1 < snd (0, 2) /\ fst (7, 9) <= 1 < snd (7, 9)).
Proof.
  split.
  - assert (Hs : 0 <= qstart (detectQuantityNear (u "2 dosa") 2 [(4, 6)]))
      by (apply Z.leb_le; vm_compute; reflexivity).
    split; [exact Hs|]. split; [left; reflexivity|].
    exact (proj1 C2_consumed_spans_disjoint _ _ _ _ 1 Hs (or_introl eq_refl)).
  - exact (proj2 C2_consumed_spans_disjoint sim_variant
             (preprocessText (u "2 தோசை ... 3 dosa")) 0%nat 1%nat (0, 2) (7, 9) 1
             ltac:(discriminate) ltac:(vm_compute; reflexivity)
             ltac:(vm_compute; reflexivity)).
Defined.

(** C3: the after-the-item tiers read from the match start, so a Tamil
    number word after the item is not taken as its quantity: for the text
    [தோசை ரெண்டு] the quantity found at the match is the default 1 with
    no span, and both parsers bill one Plain Dosa, while [ரெண்டு தோசை]
    (word before) gives 2. *)
Theorem C3_after_word_not_found :
  detectQuantityNear (u "தோசை ரெண்டு") 0 [] = default_q
  /\ parseOrderWithFuzzyMap bc_variant (JSString (u "தோசை ரெண்டு")) [item_plain_dosa]
     = [line_of item_plain_dosa 1]
  /\ parseOrderWithFuzzyMap sim_variant (JSString (u "தோசை ரெண்டு")) [item_plain_dosa]
     = [line_of item_plain_dosa 1]
  /\ parseOrderWithFuzzyMap bc_variant (JSString (u "ரெண்டு தோசை")) [item_plain_dosa]
     = [line_of item_plain_dosa 2].
Proof. split_conj; vm_compute; reflexivity. Qed.

(** C4: in both parsers, at the start offset of any match of any alias
    pattern, the after-digit tier and the after-word tier of
    [detectQuantityNear] find nothing, whatever the text and the consumed
    spans: their window starts at the match start, not at its end, and no
    alias pattern can begin with a space, a digit or a number word. *)
Theorem C4_after_tiers_silent_at_matches V t k pats p s e used :
  V = sim_variant \/ V = bc_variant ->
  In (k, pats) (synonymPatterns V) -> In p pats ->
  In (s, e) (exec_all t p) ->
  tier3 t s used = None /\ tier4 t s used = None.
Proof.
  intros HV Hk Hp He.
  exact (after_tiers_silent t p s e used (alias_pattern_cannot_start V k pats p HV Hk Hp) He).
Qed.

Lemma C4_after_tiers_silent_at_matches_witness :
  In (0%nat, 4%nat) (exec_all (u "dosa 3") (P (word "dosa")))
  /\ tier3 (u "dosa 3") 0 [] = None /\ tier4 (u "dosa 3") 0 [] = None.
Proof.
  assert (He : In (0%nat, 4%nat) (exec_all (u "dosa 3") (P (word "dosa"))))
    by (vm_compute; auto).
  split; [exact He|].
  refine (C4_after_tiers_silent_at_matches bc_variant (u "dosa 3") "Plain Dosa"
            plain_dosa_patterns (P (word "dosa")) 0 4 [] (or_intror eq_refl) _ _ He).
  - unfold bc_variant, synonymPatterns, getSynonymPatterns_bc. cbn [In].
    do 7 right. left. reflexivity.
  - unfold plain_dosa_patterns. cbn [In]. right. left. reflexivity.
Defined.

(** C5: the resolver of [billController.js] has no exact-name step: for the
    alias Plain Dosa on a catalogue listing Dosa before Plain Dosa it
    returns Dosa (whose names pass the Plain Dosa predicate), so the text
    [dosa] is billed as Dosa at 80; the resolver of [similarity.js]
    returns the catalogue entry named Plain Dosa. *)
Theorem C5_bc_resolver_skips_exact_name :
  resolve_bc [item_dosa; item_plain_dosa] "Plain Dosa" = Some item_dosa
  /\ resolve_sim [item_dosa; item_plain_dosa] "Plain Dosa" = Some item_plain_dosa
  /\ parseOrderWithFuzzyMap bc_variant (JSString (u "dosa")) [item_dosa; item_plain_dosa]
     = [line_of item_dosa 1]
  /\ parseOrderWithFuzzyMap sim_variant (JSString (u "dosa")) [item_dosa; item_plain_dosa]
     = [line_of item_plain_dosa 1].
Proof. split_conj; vm_compute; reflexivity. Qed.

(** C6: [orderMap] never holds an alias key twice (so each alias gives at
    most one line); an accepted match adds its quantity to the value
    already stored for its alias; and [2 தோசை ... 3 dosa] yields one
    Plain Dosa line of quantity 5 in both parsers. *)
Theorem C6_repeated_mentions_summed :
  (forall V t, NoDup (map fst (orderMap (scan V t))))
  /\ (forall V t k st idx,
        shouldSkip V t k idx = false ->
        omap_get k (orderMap (step V t k st idx)) =
        Some (match omap_get k (orderMap st) with Some v => v | None => 0 end
              + quantity (detectQuantityNear t idx (usedRanges st))))
  /\ parseOrderWithFuzzyMap bc_variant (JSString (u "2 தோசை ... 3 dosa")) [item_plain_dosa]
     = [line_of item_plain_dosa 5]
  /\ parseOrderWithFuzzyMap sim_variant (JSString (u "2 தோசை ... 3 dosa")) [item_plain_dosa]
     = [line_of item_plain_dosa 5].
Proof.
  split; [exact scan_keys_nodup|].
  split; [exact step_get_same|].
  split; vm_compute; reflexivity.
Qed.

Lemma C6_repeated_mentions_summed_witness :
  shouldSkip bc_variant (u "2 dosa") "Plain Dosa" 2 = false
  /\ omap_get "Plain Dosa" (orderMap (step bc_variant (u "2 dosa") "Plain Dosa"
                                        (PState [("Plain Dosa"%string, 3)] []) 2))
     = Some 5.
Proof.
  assert (Hs : shouldSkip bc_variant (u "2 dosa") "Plain Dosa" 2 = false)
    by (vm_compute; reflexivity).
  split; [exact Hs|].
  rewrite (proj1 (proj2 C6_repeated_mentions_summed) _ _ _ _ _ Hs).
  vm_compute. reflexivity.
Defined.

(** C7: in both parsers, for every catalogue, the empty string and every
    value that is not a string (undefined, null, booleans, numbers,
    objects) give the empty list of lines. *)
Theorem C7_empty_or_non_string V menuItems v :
  match v with
  | JSString (_ :: _) => True
  | _ => parseOrderWithFuzzyMap V v menuItems = []
  end.
Proof. destruct v as [| | | |[|c s]|]; reflexivity. Qed.

(** C8: [preprocessText] is not idempotent: it composes to NFC before it
    removes zero-width characters, so a vowel sign split by U+200B is
    composed only on a second pass; and the parse of the text differs from
    the parse of its normalized form (kothu parotta split that way). *)
Theorem C8_preprocess_not_idempotent :
  preprocessText [2965; 3014; 8203; 3006] = [2965; 3014; 3006]
  /\ preprocessText (preprocessText [2965; 3014; 8203; 3006]) = [2965; 3018]
  /\ parseOrderWithFuzzyMap bc_variant
       (JSString (app [2965; 3014; 8203; 3006] (u "த்து பரோட்டா"))) kothu_menu
     = [line_of item_parotta 1]
  /\ parseOrderWithFuzzyMap bc_variant
       (JSString (preprocessText (app [2965; 3014; 8203; 3006] (u "த்து பரோட்டா"))))
       kothu_menu
     = [line_of item_veg_kothu 1].
Proof. split_conj; vm_compute; reflexivity. Qed.

(** C9 (counterexample): the qualifier check reads more than the 14
    characters before a match. Two texts that agree on the 14 characters
    before the match at offset 16 (resp. 28) get different decisions in
    [billController.js] (resp. [similarity.js]). *)
Lemma C9_qualifier_window_not_14 :
  slice 2 16 (u "egg abcdefghijk dosa") = slice 2 16 (u "xyg abcdefghijk dosa")
  /\ shouldSkip bc_variant (u "egg abcdefghijk dosa") "Plain Dosa" 16 = true
  /\ shouldSkip bc_variant (u "xyg abcdefghijk dosa") "Plain Dosa" 16 = false
  /\ slice 14 28 (u "egg abcdefghijklmnopqrstuvw dosa")
     = slice 14 28 (u "xyg abcdefghijklmnopqrstuvw dosa")
  /\ shouldSkip sim_variant (u "egg abcdefghijklmnopqrstuvw dosa") "Plain Dosa" 28 = true
  /\ shouldSkip sim_variant (u "xyg abcdefghijklmnopqrstuvw dosa") "Plain Dosa" 28 = false.
Proof. split_conj; vm_compute; reflexivity. Qed.

(** C9 (amended): the qualifier check reads the [qualifierWindow] characters
    before the match, 16 in [billController.js] and 28 in [similarity.js];
    in both parsers [detectQuantityNear] reads its two windows only, the one
    before the match start of 14 characters and the one for the quantity
    after of 10 characters (where this window begins is the subject of C4),
    each of full size where the text is long enough; a digit 15 characters
    back is not read. *)
Theorem C9_windows :
  qualifierWindow bc_variant = 16%nat /\ qualifierWindow sim_variant = 28%nat
  /\ (forall V t1 t2 k i,
        slice (i - qualifierWindow V) i t1 = slice (i - qualifierWindow V) i t2 ->
        shouldSkip V t1 k i = shouldSkip V t2 k i)
  /\ (forall t i, (List.length (beforeTextFull t i) <= 14)%nat
                  /\ ((14 <= i <= List.length t)%nat -> List.length (beforeTextFull t i) = 14%nat))
  /\ (forall t i, (List.length (afterTextFull t i) <= 10)%nat
                  /\ ((i + 10 <= List.length t)%nat -> List.length (afterTextFull t i) = 10%nat))
  /\ (forall t1 t2 i used,
        beforeTextFull t1 i = beforeTextFull t2 i ->
        afterTextFull t1 i = afterTextFull t2 i ->
        detectQuantityNear t1 i used = detectQuantityNear t2 i used)
  /\ detectQuantityNear (u "123456789012345 dosa") 16 [] = QRes 3456789012345 2 16.
Proof.
  split; [reflexivity|]. split; [reflexivity|].
  split; [exact shouldSkip_local|].
  split; [intros t i; unfold beforeTextFull, windowStart, MAX_BEFORE;
          rewrite length_slice; split; [|intros H]; lia|].
  split; [intros t i; unfold afterTextFull, windowEnd, MAX_AFTER;
          rewrite length_slice; split; [|intros H]; lia|].
  split; [exact detect_windows_local|].
  vm_compute; reflexivity.
Qed.

Lemma C9_windows_witness :
  shouldSkip bc_variant (u "egg abcdefghijk dosa") "Plain Dosa" 17
    = shouldSkip bc_variant (u "egg abcdefghijk dosax") "Plain Dosa" 17
  /\ List.length (beforeTextFull (u "12345678901234567 dosa") 18) = 14%nat
  /\ List.length (afterTextFull (u "12345678901234567 dosa") 18) = 4%nat
  /\ detectQuantityNear (u "12345678901234567 dosa") 18 []
     = detectQuantityNear (u "92345678901234567 dosa") 18 [].
Proof.
  split_conj.
  - apply (proj1 (proj2 (proj2 C9_windows))). vm_compute. reflexivity.
  - apply (proj2 (proj1 (proj2 (proj2 (proj2 C9_windows))) _ _)). vm_compute. lia.
  - vm_compute. reflexivity.
  - apply (proj1 (proj2 (proj2 (proj2 (proj2 (proj2 C9_windows))))));
      vm_compute; reflexivity.
Defined.

(** C10: [detectQuantityNear] always returns a quantity of at least 1;
    every line of either parser has quantity at least 1; and at a match of
    an alias pattern, a run of digits before it that parses to 0 is not a
    quantity: the result is the default 1 with no span. *)
Theorem C10_quantity_positive :
  (forall t i used, 1 <= quantity (detectQuantityNear t i used))
  /\ (forall V v menuItems,
        Forall (fun l => 1 <= lquantity l) (parseOrderWithFuzzyMap V v menuItems))
  /\ (forall V t k pats p s e used len0 ds,
        V = sim_variant \/ V = bc_variant ->
        In (k, pats) (synonymPatterns V) -> In p pats ->
        In (s, e) (exec_all t p) ->
        before_digits (beforeTextFull t s) = Some (len0, ds) ->
        parseInt10 ds = 0 ->
        detectQuantityNear t s used = default_q).
Proof.
  split; [exact detect_pos|].
  split; [exact parse_lines_pos|].
  intros V t k pats p s e used len0 ds HV Hk Hp He Hd Hz.
  destruct (after_tiers_silent t p s e used
              (alias_pattern_cannot_start V k pats p HV Hk Hp) He) as [H3 H4].
  unfold detectQuantityNear.
  rewrite (before_zero_tier2_none t s used len0 ds Hd), H3, H4.
  unfold tier1. rewrite Hd, Hz. reflexivity.
Qed.

Lemma C10_quantity_positive_witness :
  In (2%nat, 6%nat) (exec_all (u "0 dosa") (P (word "dosa")))
  /\ detectQuantityNear (u "0 dosa") 2 [] = default_q.
Proof.
  assert (He : In (2%nat, 6%nat) (exec_all (u "0 dosa") (P (word "dosa"))))
    by (vm_compute; auto).
  split; [exact He|].
  refine (proj2 (proj2 C10_quantity_positive) bc_variant (u "0 dosa") "Plain Dosa"%string
            plain_dosa_patterns (P (word "dosa")) 2%nat 6%nat [] 2%nat (u "0")
            (or_intror eq_refl) _ _ He _ _).
  - unfold bc_variant, synonymPatterns, getSynonymPatterns_bc. cbn [In].
    do 7 right. left. reflexivity.
  - unfold plain_dosa_patterns. cbn [In]. right. left. reflexivity.
  - vm_compute. reflexivity.
  - vm_compute. reflexivity.
Defined.

(* ================================================================== *)
(** * Further properties of the code *)

(* ------------------------------------------------------------------ *)
(** ** [trim] and [preprocessText] *)

Lemma drop_while_split p s : exists a, s = a ++ drop_while p s.
Proof.
  induction s as [|c s IH]; simpl; [exists []; reflexivity|].
  destruct (p c); [destruct IH as [a Ha]; exists (c :: a); simpl; congruence|].
  exists []; reflexivity.
Qed.

Lemma drop_while_head p s c r : drop_while p s = c :: r -> p c = false.
Proof.
  induction s as [|c' s IH]; simpl; [discriminate|].
  destruct (p c') eqn:E; [exact IH|]. intros H; inversion H; subst; exact E.
Qed.

Lemma drop_while_id p s : (forall c r, s = c :: r -> p c = false) -> drop_while p s = s.
Proof.
  destruct s as [|c r]; intros H; simpl; [reflexivity|]. rewrite (H c r eq_refl). reflexivity.
Qed.

Lemma trim_infix s : exists a b, s = a ++ trim s ++ b.
Proof.
  unfold trim.
  destruct (drop_while_split is_space s) as [a Ha].
  set (d1 := drop_while is_space s) in *.
  destruct (drop_while_split is_space (rev d1)) as [a2 Ha2].
  exists a, (rev a2). rewrite Ha at 1. f_equal.
  rewrite <- rev_app_distr, <- Ha2, rev_involutive. reflexivity.
Qed.

Lemma trim_ends s : space_free_ends_b (trim s) = true.
Proof.
  unfold trim.
  destruct (drop_while_split is_space s) as [a Ha].
  set (d1 := drop_while is_space s) in *.
  destruct (drop_while_split is_space (rev d1)) as [a2 Ha2].
  set (d2 := drop_while is_space (rev d1)) in *.
  destruct d2 as [|c r] eqn:Ed2; [reflexivity|].
  assert (Hc : is_space c = false) by exact (drop_while_head _ _ _ _ Ed2).
  assert (Hd1 : d1 = rev (c :: r) ++ rev a2)
    by (rewrite <- rev_app_distr, <- Ha2, rev_involutive; reflexivity).
  destruct (rev (c :: r)) as [|c0 r0] eqn:Er.
  { simpl in Er. destruct (rev r); discriminate. }
  unfold space_free_ends_b.
  assert (H0 : is_space c0 = false).
  { simpl in Hd1. unfold d1 in Hd1.
    exact (drop_while_head _ _ _ _ Hd1). }
  rewrite H0. change (negb (is_space (last (c0 :: r0) 0)) = true).
  rewrite <- Er. simpl rev. rewrite last_last, Hc. reflexivity.
Qed.

Lemma trim_id s : space_free_ends_b s = true -> trim s = s.
Proof.
  intros H. unfold trim.
  destruct s as [|c r]; [reflexivity|].
  unfold space_free_ends_b in H. apply andb_true_iff in H. destruct H as [H1 H2].
  apply negb_true_iff in H1, H2.
  rewrite (drop_while_id is_space (c :: r)) by (intros c' r' E; inversion E; subst; exact H1).
  rewrite (drop_while_id is_space (rev (c :: r))); [apply rev_involutive|].
  intros c' r' E. rewrite <- H2.
  assert (Hl : last (c :: r) 0 = c').
  { rewrite <- (rev_involutive (c :: r)), E. simpl. apply last_last. }
  rewrite Hl. reflexivity.
Qed.

Lemma trim_idem s : trim (trim s) = trim s.
Proof. apply trim_id, trim_ends. Qed.

Lemma runs_to_space_in p b s c :
  In c (runs_to_space p b s) -> (In c s /\ p c = false) \/ c = 32.
Proof.
  revert b. induction s as [|c0 s IH]; intros b H; simpl in H; [destruct H|].
  destruct (p c0) eqn:E.
  - destruct b; [destruct (IH _ H) as [[H1 H2]|H1]; [left; split; [right|]|right]; auto|].
    destruct H as [H|H]; [right; auto|].
    destruct (IH _ H) as [[H1 H2]|H1]; [left; split; [right|]|right]; auto.
  - destruct H as [H|H]; [left; subst; split; [left|]; auto|].
    destruct (IH _ H) as [[H1 H2]|H1]; [left; split; [right|]|right]; auto.
Qed.

Lemma runs_to_space_adj p b s :
  adj_ok p (runs_to_space p b s) = true
  /\ (b = true -> forall c r, runs_to_space p b s = c :: r -> p c = false).
Proof.
  revert b. induction s as [|c0 s IH]; intros b; simpl; [split; [reflexivity|discriminate]|].
  destruct (p c0) eqn:E.
  - destruct b.
    + exact (IH true).
    + destruct (IH true) as [H1 H2]. split; [|discriminate].
      destruct (runs_to_space p true s) as [|c1 r1] eqn:Er; [reflexivity|].
      change ((negb (p 32) || negb (p c1)) && adj_ok p (c1 :: r1) = true).
      rewrite (H2 eq_refl c1 r1 eq_refl), H1, orb_true_r. reflexivity.
  - destruct (IH false) as [H1 _]. split.
    + destruct (runs_to_space p false s) as [|c1 r1]; [reflexivity|].
      change ((negb (p c0) || negb (p c1)) && adj_ok p (c1 :: r1) = true).
      rewrite E, H1. reflexivity.
    + intros _ c r Hc. inversion Hc; subst. exact E.
Qed.

Lemma adj_ok_app p l1 l2 :
  adj_ok p (l1 ++ l2) = true -> adj_ok p l1 = true /\ adj_ok p l2 = true.
Proof.
  induction l1 as [|c l1 IH]; simpl; [auto|].
  destruct l1 as [|c' l1']; simpl in *.
  - destruct l2 as [|c2 l2]; [auto|]. intros H; apply andb_true_iff in H; tauto.
  - intros H; apply andb_true_iff in H; destruct H as [H1 H2].
    destruct (IH H2) as [H3 H4]. rewrite H1, H3; auto.
Qed.

Lemma adj_ok_nth p l k c1 c2 :
  adj_ok p l = true -> nth_error l k = Some c1 -> nth_error l (S k) = Some c2 ->
  p c1 = false \/ p c2 = false.
Proof.
  revert l. induction k as [|k IH]; intros l H H1 H2.
  - destruct l as [|x [|y l]]; simpl in *; try discriminate.
    inversion H1; inversion H2; subst. apply andb_true_iff in H. destruct H as [H _].
    apply orb_true_iff in H. destruct H as [H|H]; apply negb_true_iff in H; auto.
  - destruct l as [|x l]; [discriminate|]. simpl in H1, H2.
    apply (IH l); auto. destruct l as [|y l]; [reflexivity|].
    simpl in H. apply andb_true_iff in H. tauto.
Qed.

Lemma is_space_32 : is_space 32 = true.
Proof. reflexivity. Qed.

Lemma preprocess_chars_aux input c :
  In c (runs_to_space is_space false
          (runs_to_space is_punct false
             (filter (fun c => negb (is_zero_width c)) (nfc input)))) ->
  is_zero_width c = false /\ is_punct c = false /\ (is_space c = true -> c = 32).
Proof.
  intros H. destruct (runs_to_space_in _ _ _ _ H) as [[H1 H2]|H1]; [|subst; auto].
  split; [|split; [|rewrite H2; discriminate]].
  - destruct (runs_to_space_in _ _ _ _ H1) as [[H3 _]|H3]; [|subst; reflexivity].
    apply filter_In in H3. destruct H3 as [_ H3]. apply negb_true_iff in H3. exact H3.
  - destruct (runs_to_space_in _ _ _ _ H1) as [[_ H3]|H3]; [exact H3|subst; reflexivity].
Qed.

(** X3: the output of [preprocessText] holds no zero-width character and no
    punctuation of the stripped class, and its only whitespace is the plain
    space. *)
Theorem preprocessText_chars input c :
  In c (preprocessText input) ->
  is_zero_width c = false /\ is_punct c = false /\ (is_space c = true -> c = 32).
Proof.
  unfold preprocessText. intros H. apply preprocess_chars_aux with input.
  match goal with |- In c ?s => destruct (trim_infix s) as (a & b & E) end.
  rewrite E. apply in_or_app. right. apply in_or_app. left. exact H.
Qed.

(** X4: the output of [preprocessText] neither starts nor ends with a space
    and never holds two spaces in a row. *)
Theorem preprocessText_spacing input :
  (forall c r, preprocessText input = c :: r -> is_space c = false)
  /\ (forall r c, preprocessText input = r ++ [c] -> is_space c = false)
  /\ (forall k c1 c2, nth_error (preprocessText input) k = Some c1 ->
        nth_error (preprocessText input) (S k) = Some c2 ->
        is_space c1 = false \/ is_space c2 = false).
Proof.
  pose proof (trim_ends (runs_to_space is_space false
          (runs_to_space is_punct false
             (filter (fun c => negb (is_zero_width c)) (nfc input))))) as He.
  fold (preprocessText input) in He.
  split; [|split].
  - intros c r E. rewrite E in He. simpl in He.
    apply andb_true_iff in He. destruct He as [He _]. apply negb_true_iff; exact He.
  - intros r c E. rewrite E in He. destruct r as [|c0 r].
    + simpl in He. apply andb_true_iff in He. destruct He as [He _]. apply negb_true_iff; exact He.
    + change ((negb (is_space c0) && negb (is_space (last ((c0 :: r) ++ [c]) 0)))
              = true) in He.
      rewrite last_last in He. apply andb_true_iff in He. destruct He as [_ He].
      apply negb_true_iff; exact He.
  - intros k c1 c2. apply adj_ok_nth.
    unfold preprocessText.
    match goal with |- adj_ok _ (trim ?s) = true =>
      destruct (trim_infix s) as (a & b & E);
      destruct (runs_to_space_adj is_space false
                  (runs_to_space is_punct false
                     (filter (fun c => negb (is_zero_width c)) (nfc input)))) as [Ha _] end.
    rewrite E in Ha. apply adj_ok_app in Ha. destruct Ha as [_ Ha].
    apply adj_ok_app in Ha. tauto.
Qed.

(* ------------------------------------------------------------------ *)
(** ** Where a quantity span can lie *)

Lemma length_take_while p (s : text) : (List.length (take_while p s) <= List.length s)%nat.
Proof. induction s as [|c s IH]; simpl; [lia|]. destruct (p c); simpl; lia. Qed.

Lemma before_digits_len before len0 ds :
  before_digits before = Some (len0, ds) -> (1 <= len0 <= List.length before)%nat.
Proof.
  unfold before_digits.
  pose proof (length_take_while is_space (rev before)) as H1.
  set (sp := take_while is_space (rev before)) in *.
  pose proof (length_take_while is_digit (skipn (List.length sp) (rev before))) as H2.
  rewrite length_skipn, length_rev in H2. rewrite length_rev in H1.
  destruct (take_while is_digit (skipn (List.length sp) (rev before))) as [|c r] eqn:E;
    [discriminate|].
  intros H; inversion H; subst. simpl in *. lia.
Qed.

Lemma before_word_len w before len0 :
  before_word w before = Some len0 -> (List.length w <= len0 <= List.length before)%nat.
Proof.
  unfold before_word.
  pose proof (length_take_while is_space (rev before)) as H1. rewrite length_rev in H1.
  set (sp := take_while is_space (rev before)) in *.
  destruct (text_eqb _ _) eqn:E; [|discriminate].
  apply text_eqb_eq in E. intros H; inversion H; subst.
  apply (f_equal (@List.length char)) in E.
  rewrite length_firstn, length_skipn, length_rev, length_rev in E. lia.
Qed.

Lemma after_digits_len after idx ds :
  after_digits after = Some (idx, ds) ->
  ds <> [] /\ (idx + List.length ds <= List.length after)%nat.
Proof.
  unfold after_digits.
  pose proof (length_take_while is_space after) as H1.
  set (sp := take_while is_space after) in *.
  pose proof (length_take_while is_digit (skipn (List.length sp) after)) as H2.
  rewrite length_skipn in H2.
  destruct (take_while is_digit (skipn (List.length sp) after)) as [|c r] eqn:E;
    [discriminate|].
  intros H; inversion H; subst. split; [discriminate|]. lia.
Qed.

Lemma after_word_len w after len0 :
  after_word w after = Some len0 -> (List.length w <= len0 <= List.length after)%nat.
Proof.
  unfold after_word.
  pose proof (length_take_while is_space after) as H1.
  set (sp := take_while is_space after) in *.
  destruct (text_eqb _ _) eqn:E; [|discriminate].
  apply text_eqb_eq in E. intros H; inversion H; subst.
  apply (f_equal (@List.length char)) in E.
  rewrite length_firstn, length_skipn in E. clearbody sp.
  pose proof (Nat.le_min_r (List.length w) (List.length after - List.length sp)) as Hm.
  rewrite E in Hm. lia.
Qed.

Lemma tier2_loop_shape t i used ws q :
  tier2_loop t i used ws = Some q ->
  exists w len0, In w ws /\ before_word w (beforeTextFull t i) = Some len0
    /\ qstart q = Z.of_nat i - Z.of_nat len0 /\ qend q = Z.of_nat i.
Proof.
  induction ws as [|w ws IH]; intros H; cbn [tier2_loop] in H; [discriminate|].
  destruct (before_word w (beforeTextFull t i)) as [len0|] eqn:Eb.
  - destruct (isUnused _ _ _).
    + injection H as <-. exists w, len0. simpl. auto.
    + destruct (IH H) as (w' & l' & ? & ? & ?). exists w', l'. simpl. tauto.
  - destruct (IH H) as (w' & l' & ? & ? & ?). exists w', l'. simpl. tauto.
Qed.

Lemma tier4_loop_shape t i used ws q :
  tier4_loop t i used ws = Some q ->
  exists w len0, In w ws /\ after_word w (afterTextFull t i) = Some len0
    /\ qstart q = Z.of_nat i /\ qend q = Z.of_nat i + Z.of_nat len0.
Proof.
  induction ws as [|w ws IH]; intros H; cbn [tier4_loop] in H; [discriminate|].
  destruct (after_word w (afterTextFull t i)) as [len0|] eqn:Eb.
  - destruct (isUnused _ _ _).
    + injection H as <-. exists w, len0. simpl. auto.
    + destruct (IH H) as (w' & l' & ? & ? & ?). exists w', l'. simpl. tauto.
  - destruct (IH H) as (w' & l' & ? & ? & ?). exists w', l'. simpl. tauto.
Qed.

Lemma tamilNumberWords_len w : In w tamilNumberWords -> (1 <= List.length w)%nat.
Proof.
  intros Hw. pose proof tamilNumberWords_nonempty as H.
  rewrite forallb_forall in H. specialize (H w Hw).
  destruct (List.length w); [discriminate|lia].
Qed.

Lemma beforeTextFull_len t i :
  (List.length (beforeTextFull t i) <= i - (i - MAX_BEFORE))%nat.
Proof. unfold beforeTextFull, windowStart. rewrite length_slice. lia. Qed.

Lemma afterTextFull_len t i :
  (List.length (afterTextFull t i) <= Nat.min (List.length t) (i + MAX_AFTER) - i)%nat.
Proof.
  unfold afterTextFull, windowEnd. rewrite length_slice.
  unfold MAX_AFTER. lia.
Qed.

(** X5: for a match index within the text, [detectQuantityNear] returns the
    default [{quantity: 1, start: -1, end: -1}] or a non-empty span inside the
    text, starting at most 14 code units before the index and ending at most
    10 after it. *)
Theorem detect_span_bounds t i used :
  (i <= List.length t)%nat ->
  detectQuantityNear t i used = default_q
  \/ (0 <= qstart (detectQuantityNear t i used)
      /\ Z.of_nat i - 14 <= qstart (detectQuantityNear t i used)
      /\ qstart (detectQuantityNear t i used) < qend (detectQuantityNear t i used)
      /\ qend (detectQuantityNear t i used) <= Z.of_nat i + 10
      /\ qend (detectQuantityNear t i used) <= Z.of_nat (List.length t)).
Proof.
  intros Hi. pose proof (beforeTextFull_len t i) as Hb.
  pose proof (afterTextFull_len t i) as Ha. unfold MAX_BEFORE, MAX_AFTER in *.
  unfold detectQuantityNear.
  destruct (tier1 t i used) as [q|] eqn:E1.
  { right. unfold tier1 in E1.
    destruct (before_digits _) as [[len0 ds]|] eqn:Ed; [|discriminate].
    apply before_digits_len in Ed.
    destruct (_ && _); [|discriminate]. injection E1 as <-. simpl. lia. }
  destruct (tier2 t i used) as [q|] eqn:E2.
  { right. destruct (tier2_loop_shape _ _ _ _ _ E2) as (w & len0 & Hw & Hbw & -> & ->).
    apply before_word_len in Hbw. pose proof (tamilNumberWords_len w Hw). lia. }
  destruct (tier3 t i used) as [q|] eqn:E3.
  { right. unfold tier3 in E3.
    destruct (after_digits _) as [[idx ds]|] eqn:Ed; [|discriminate].
    apply after_digits_len in Ed. destruct Ed as [Hne Hl].
    destruct ds as [|d ds]; [congruence|].
    destruct (_ && _); [|discriminate]. injection E3 as <-. simpl in *. lia. }
  destruct (tier4 t i used) as [q|] eqn:E4; [|left; reflexivity].
  right. destruct (tier4_loop_shape _ _ _ _ _ E4) as (w & len0 & Hw & Haw & -> & ->).
  apply after_word_len in Haw. pose proof (tamilNumberWords_len w Hw). lia.
Qed.

Lemma search_from_range fuel r t uf from s e :
  search_from t uf fuel r from = Some (s, e) -> (from <= s < from + fuel)%nat.
Proof.
  revert from; induction fuel as [|n IH]; intros from H; simpl in H; [discriminate|].
  destruct (match_at t uf r from) as [j|].
  - inversion H; subst. lia.
  - specialize (IH _ H). lia.
Qed.

Lemma exec_le t uf r from s e :
  exec t uf r from = Some (s, e) -> (s <= List.length t)%nat.
Proof.
  unfold exec. destruct (Nat.ltb (List.length t) from) eqn:E; [discriminate|].
  apply Nat.ltb_ge in E. intros H. apply search_from_range in H. lia.
Qed.

Lemma exec_all_le t p s e : In (s, e) (exec_all t p) -> (s <= List.length t)%nat.
Proof.
  unfold exec_all. generalize 0%nat. generalize (S (List.length t)).
  intros fuel; induction fuel as [|n IH]; intros from H; simpl in H; [destruct H|].
  destruct (exec t (pu p) (pre p) from) as [[s' e']|] eqn:Ex; [|destruct H].
  destruct (Nat.ltb s' e').
  - destruct H as [H|H]; [inversion H; subst; eapply exec_le; eexact Ex|].
    exact (IH _ H).
  - destruct H as [H|[]]. inversion H; subst. eapply exec_le; eexact Ex.
Qed.

Lemma fold_left_inv_in {A B : Type} (P : A -> Prop) (f : A -> B -> A) l :
  forall a, P a -> (forall a b, In b l -> P a -> P (f a b)) -> P (fold_left f l a).
Proof.
  induction l as [|b l IH]; intros a Ha Hf; simpl; [exact Ha|].
  apply IH; [apply Hf; [left; reflexivity|exact Ha]|].
  intros a' b' Hb; apply Hf; right; exact Hb.
Qed.

(** [scan_inv] for the steps the scan really takes: at match positions,
    for the keys of the table. *)
Lemma scan_inv_at (V : variant) (t : text) (Q : pstate -> Prop) :
  Q (PState [] []) ->
  (forall k pats p s e st, In (k, pats) (synonymPatterns V) -> In p pats ->
     In (s, e) (exec_all t p) -> Q st -> Q (step V t k st s)) ->
  Q (scan V t).
Proof.
  intros H0 Hs. unfold scan. apply fold_left_inv_in; [exact H0|].
  intros st [k pats] Hk Hst. unfold scan_alias. simpl.
  apply fold_left_inv_in; [exact Hst|].
  intros st' p Hp Hst'. unfold scan_pattern.
  apply fold_left_inv_in; [exact Hst'|].
  intros st'' [s e] He Hst''. exact (Hs k pats p s e st'' Hk Hp He Hst'').
Qed.

(** X6: every range recorded in [usedRanges] by the scan of
    [parseOrderWithFuzzyMap] is a non-empty span inside the text. *)
Theorem used_ranges_within V t r :
  In r (usedRanges (scan V t)) ->
  0 <= fst r /\ fst r < snd r /\ snd r <= Z.of_nat (List.length t).
Proof.
  revert r. apply scan_inv_at; [intros r []|].
  intros k pats p s e st _ _ He Hst r Hr. unfold step in Hr.
  destruct (shouldSkip V t k s); [exact (Hst r Hr)|]. simpl in Hr.
  destruct ((0 <=? qstart _) && (qstart _ <? qend _)) eqn:E; [|exact (Hst r Hr)].
  apply in_app_or in Hr. destruct Hr as [Hr|[Hr|[]]]; [exact (Hst r Hr)|].
  subst r. simpl. apply andb_true_iff in E. destruct E as [E1 E2].
  apply Z.leb_le in E1. apply Z.ltb_lt in E2.
  destruct (detect_span_bounds t s (usedRanges st) (exec_all_le _ _ _ _ He)) as [Hd|Hd].
  - rewrite Hd in E1. simpl in E1. lia.
  - lia.
Qed.

Lemma resolve_bc_in menuItems k it : resolve_bc menuItems k = Some it -> In it menuItems.
Proof.
  unfold resolve_bc. destruct (switch_bc k); [|discriminate].
  intros H. exact (proj1 (find_some _ _ H)).
Qed.

Lemma resolve_sim_in menuItems k it : resolve_sim menuItems k = Some it -> In it menuItems.
Proof.
  unfold resolve_sim. destruct (find _ menuItems) as [x|] eqn:E.
  - intros H; inversion H; subst. exact (proj1 (find_some _ _ E)).
  - destruct (switch_sim k); [|discriminate].
    intros H. exact (proj1 (find_some _ _ H)).
Qed.

Lemma build_lines_in resolve menuItems mp l :
  (forall k it, resolve k = Some it -> In it menuItems) ->
  In l (build_lines resolve mp) ->
  exists it, In it menuItems /\ l = line_of it (lquantity l).
Proof.
  intros Hr H. unfold build_lines in H. apply in_flat_map in H.
  destruct H as [kq [_ H]]. destruct (resolve (fst kq)) as [it|] eqn:E; [|destruct H].
  destruct H as [H|[]]. subst l. exists it. split; [exact (Hr _ _ E)|reflexivity].
Qed.

Lemma parse_lines_in V v menuItems l :
  (forall k it, resolver V menuItems k = Some it -> In it menuItems) ->
  In l (parseOrderWithFuzzyMap V v menuItems) ->
  exists it, In it menuItems /\ l = line_of it (lquantity l).
Proof.
  intros Hr. unfold parseOrderWithFuzzyMap.
  destruct v as [| | | |s|]; try (intros []).
  destruct s as [|c s]; [intros []|].
  destruct (preprocessText (c :: s)); [intros []|].
  apply build_lines_in. exact Hr.
Qed.

(** X1: for both parsers, every line of [parseOrderWithFuzzyMap] is the line
    [{itemName, quantity, unitPrice, totalPrice}] of an item of [menuItems]. *)
Theorem parse_lines_from_menu :
  (forall v menuItems l, In l (parseOrderWithFuzzyMap bc_variant v menuItems) ->
     exists it, In it menuItems /\ l = line_of it (lquantity l))
  /\ (forall v menuItems l, In l (parseOrderWithFuzzyMap sim_variant v menuItems) ->
     exists it, In it menuItems /\ l = line_of it (lquantity l)).
Proof.
  split; intros v menuItems l; apply parse_lines_in.
  - exact (resolve_bc_in menuItems).
  - exact (resolve_sim_in menuItems).
Qed.

(* line count *)

Lemma step_keys V t k st idx kk :
  In kk (map fst (orderMap (step V t k st idx))) ->
  kk = k \/ In kk (map fst (orderMap st)).
Proof.
  unfold step. destruct (shouldSkip V t k idx); [auto|]. simpl.
  match goal with |- In kk (map fst (omap_set ?k ?v ?mp)) -> _ =>
    destruct (omap_set_keys k v mp) as [E|[E _]] end; rewrite E; [auto|].
  intros H. apply in_app_or in H. destruct H as [H|[H|[]]]; auto.
Qed.

Lemma scan_keys_incl V t :
  incl (map fst (orderMap (scan V t))) (map fst (synonymPatterns V)).
Proof.
  apply scan_inv_at; [intros x []|].
  intros k pats p s e st Hk _ _ Hst kk Hkk.
  destruct (step_keys _ _ _ _ _ _ Hkk) as [->|H]; [|exact (Hst _ H)].
  apply in_map_iff. exists (k, pats). auto.
Qed.

Lemma build_lines_length resolve mp :
  (List.length (build_lines resolve mp) <= List.length mp)%nat.
Proof.
  induction mp as [|kq mp IH]; simpl; [lia|].
  destruct (resolve (fst kq)); simpl; lia.
Qed.

(** X2: [parseOrderWithFuzzyMap] returns at most one line per entry of the
    synonym table (the order map is keyed by the table's item names). *)
Theorem parse_line_count V v menuItems :
  (List.length (parseOrderWithFuzzyMap V v menuItems) <= List.length (synonymPatterns V))%nat.
Proof.
  unfold parseOrderWithFuzzyMap.
  destruct v as [| | | |s|]; simpl; try lia.
  destruct s as [|c s]; simpl; [lia|].
  destruct (preprocessText (c :: s)) as [|c' s']; simpl; [lia|].
  set (t := c' :: s').
  eapply Nat.le_trans; [apply build_lines_length|].
  rewrite <- (length_map fst (orderMap (scan V t))), <- (length_map fst (synonymPatterns V)).
  apply NoDup_incl_length; [apply scan_keys_nodup|apply scan_keys_incl].
Qed.

(* ------------------------------------------------------------------ *)
(** ** The sanitising step of [llmParseToIds] *)

Lemma sanitize_lines_shape js :
  Forall (fun l => 1 <= snd l /\ trim (fst l) = fst l) (sanitize_lines js).
Proof.
  unfold sanitize_lines. apply Forall_forall. intros l Hl.
  apply in_map_iff in Hl. destruct Hl as [x [<- Hx]]. unfold sanitize_line. simpl.
  split; [destruct (get_field "qty" x) as [[| | [q| | |] | | |]|]; lia|].
  destruct (get_field "id" x) as [[| | | s | |]|]; try reflexivity. apply trim_idem.
Qed.

Lemma sanitize_line_to_json l :
  1 <= snd l -> trim (fst l) = fst l ->
  line_ok (line_to_json l) = true /\ sanitize_line (line_to_json l) = l.
Proof.
  destruct l as [id q]; simpl. intros Hq Ht.
  split; [reflexivity|]. unfold sanitize_line. simpl.
  rewrite Ht, Z.div_1_r. f_equal. lia.
Qed.

(** X8: writing sanitised lines back as [{id, qty}] objects and sanitising
    them again gives the same lines. *)
Theorem sanitize_roundtrip js :
  sanitize_lines (map line_to_json (sanitize_lines js)) = sanitize_lines js.
Proof.
  pose proof (sanitize_lines_shape js) as H.
  induction (sanitize_lines js) as [|l ls IH]; [reflexivity|].
  inversion H as [|? ? [H1 H2] H3]; subst.
  destruct (sanitize_line_to_json l H1 H2) as [Ho Hs].
  unfold sanitize_lines in *. cbn [map filter]. rewrite Ho. cbn [map]. rewrite Hs, IH by exact H3.
  reflexivity.
Qed.

(* ------------------------------------------------------------------ *)
(** ** Base 36 and [MENU_CATALOG] *)

Lemma digit36_val_digit36 d : (d < 36)%nat -> digit36_val (digit36 d) = Z.of_nat d.
Proof.
  intros Hd. unfold digit36, digit36_val.
  destruct (Nat.ltb_spec d 10).
  - rewrite (proj2 (Z.leb_le _ _)) by lia. lia.
  - rewrite (proj2 (Z.leb_gt _ _)) by lia. lia.
Qed.

Lemma parseInt36_snoc s c : parseInt36 (s ++ [c]) = parseInt36 s * 36 + digit36_val c.
Proof. unfold parseInt36. rewrite fold_left_app. reflexivity. Qed.

Lemma to36_aux_correct f n : (n < f)%nat -> parseInt36 (to36_aux f n) = Z.of_nat n.
Proof.
  revert n; induction f as [|f IH]; intros n Hn; [lia|].
  cbn [to36_aux]. destruct (Nat.ltb_spec n 36).
  - unfold parseInt36. cbn [fold_left]. rewrite digit36_val_digit36 by lia. lia.
  - rewrite parseInt36_snoc, IH, digit36_val_digit36.
    + pose proof (Nat.div_mod_eq n 36). lia.
    + apply Nat.mod_upper_bound; lia.
    + pose proof (Nat.div_lt n 36). lia.
Qed.

Lemma parseInt36_toString36 n : parseInt36 (toString36 n) = Z.of_nat n.
Proof. apply to36_aux_correct. lia. Qed.

Lemma toString36_inj i j : toString36 i = toString36 j -> i = j.
Proof.
  intros H. apply (f_equal parseInt36) in H. rewrite !parseInt36_toString36 in H. lia.
Qed.

Lemma catalog_from_nth j items i it :
  nth_error items i = Some it ->
  nth_error (catalog_from j items) i
  = Some (CatEntry (77 :: toString36 (j + i)) (name it) (or_empty (tamilName it)) (price it)).
Proof.
  revert j i; induction items as [|x items IH]; intros j i H; destruct i; simpl in *;
    try discriminate.
  - inversion H; subst. rewrite Nat.add_0_r. reflexivity.
  - rewrite (IH (S j) i H). replace (j + S i)%nat with (S j + i)%nat by lia. reflexivity.
Qed.

Lemma catalog_from_ids j items :
  map cid (catalog_from j items) = map (fun n => 77 :: toString36 n) (seq j (List.length items)).
Proof.
  revert j; induction items as [|x items IH]; intros j; simpl; [reflexivity|].
  rewrite IH. reflexivity.
Qed.

Lemma NoDup_map_inj {A B} (f : A -> B) l :
  (forall x y, f x = f y -> x = y) -> NoDup l -> NoDup (map f l).
Proof.
  intros Hf; induction 1 as [|x l Hx Hl IH]; simpl; constructor; auto.
  intros H. apply in_map_iff in H. destruct H as [y [Hy Hy']].
  apply Hf in Hy. subst. contradiction.
Qed.

Lemma catalog_ids_nodup items : NoDup (map cid (catalog_list items)).
Proof.
  unfold catalog_list. rewrite catalog_from_ids. apply NoDup_map_inj; [|apply seq_NoDup].
  intros x y H. injection H as H. exact (toString36_inj _ _ H).
Qed.

Section JMapLemmas.
Context {K V : Type} (keq : K -> K -> bool).
Hypothesis keq_spec : forall a b, keq a b = true <-> a = b.

Lemma jm_get_set k k' v (mp : list (K * V)) :
  jm_get keq k (jm_set keq k' v mp) = if keq k' k then Some v else jm_get keq k mp.
Proof.
  induction mp as [|[k1 v1] mp IH]; simpl.
  - destruct (keq k' k); reflexivity.
  - destruct (keq k1 k') eqn:E1; simpl.
    + apply keq_spec in E1. subst k1. destruct (keq k' k); reflexivity.
    + rewrite IH. destruct (keq k1 k) eqn:E2; [|reflexivity].
      destruct (keq k' k) eqn:E3; [|reflexivity].
      apply keq_spec in E2, E3. subst. rewrite (proj2 (keq_spec k k) eq_refl) in E1.
      discriminate.
Qed.

Lemma jm_fold_notin k es (mp : list (K * V)) :
  ~ In k (map fst es) ->
  jm_get keq k (fold_left (fun m kv => jm_set keq (fst kv) (snd kv) m) es mp)
  = jm_get keq k mp.
Proof.
  revert mp; induction es as [|[k1 v1] es IH]; intros mp H; simpl; [reflexivity|].
  rewrite IH by (intros H'; apply H; right; exact H').
  rewrite jm_get_set. destruct (keq k1 k) eqn:E; [|reflexivity].
  apply keq_spec in E. subst. exfalso. apply H. left. reflexivity.
Qed.

Lemma jm_fold_in k v es (mp : list (K * V)) :
  NoDup (map fst es) -> In (k, v) es ->
  jm_get keq k (fold_left (fun m kv => jm_set keq (fst kv) (snd kv) m) es mp) = Some v.
Proof.
  revert mp; induction es as [|[k1 v1] es IH]; intros mp Hd H; [destruct H|].
  simpl in Hd. inversion Hd as [|? ? Hn Hd']; subst. simpl.
  destruct H as [H|H].
  - inversion H; subst. rewrite jm_fold_notin by exact Hn.
    rewrite jm_get_set, (proj2 (keq_spec k k) eq_refl). reflexivity.
  - exact (IH _ Hd' H).
Qed.

End JMapLemmas.

Lemma opt_text_eqb_eq a b : opt_text_eqb a b = true <-> a = b.
Proof.
  destruct a as [x|], b as [y|]; simpl; split; intros H; try discriminate; try reflexivity.
  - f_equal. apply text_eqb_eq. exact H.
  - injection H as <-. apply text_eqb_eq. reflexivity.
Qed.

Section JMapMore.
Context {K V : Type} (keq : K -> K -> bool).
Hypothesis keq_spec : forall a b, keq a b = true <-> a = b.

Lemma jm_set_keys_in x k v (mp : list (K * V)) :
  In x (map fst (jm_set keq k v mp)) -> x = k \/ In x (map fst mp).
Proof.
  induction mp as [|[k1 v1] mp IH]; simpl.
  - intros [H|[]]. left. symmetry. exact H.
  - destruct (keq k1 k); simpl; intros [H|H]; auto.
    destruct (IH H); auto.
Qed.

Lemma jm_set_nodup k v (mp : list (K * V)) :
  NoDup (map fst mp) -> NoDup (map fst (jm_set keq k v mp)).
Proof.
  induction mp as [|[k1 v1] mp IH]; simpl; intros H.
  - constructor; [intros []|constructor].
  - inversion H as [|? ? Hn Hd]; subst.
    destruct (keq k1 k) eqn:E; simpl; constructor; auto.
    intros Hin. destruct (jm_set_keys_in _ _ _ _ Hin) as [->|Hin']; [|tauto].
    rewrite (proj2 (keq_spec k k) eq_refl) in E. discriminate.
Qed.

Lemma jm_get_in_nodup k v (mp : list (K * V)) :
  NoDup (map fst mp) -> In (k, v) mp -> jm_get keq k mp = Some v.
Proof.
  induction mp as [|[k1 v1] mp IH]; simpl; intros Hd H; [destruct H|].
  inversion Hd as [|? ? Hn Hd']; subst.
  destruct H as [H|H].
  - injection H as <- <-. rewrite (proj2 (keq_spec k1 k1) eq_refl). reflexivity.
  - destruct (keq k1 k) eqn:E.
    + apply keq_spec in E. subst. exfalso. apply Hn.
      apply in_map_iff. exists (k, v). split; [reflexivity|exact H].
    + exact (IH Hd' H).
Qed.

End JMapMore.

Lemma catalog_byId_nth items i it :
  nth_error items i = Some it ->
  jm_get text_eqb (77 :: toString36 i) (catalog_byId items)
  = Some (CatEntry (77 :: toString36 i) (name it) (or_empty (tamilName it)) (price it)).
Proof.
  intros Hi. unfold catalog_byId, jm_of_entries. apply jm_fold_in.
  - exact text_eqb_eq.
  - rewrite map_map. apply catalog_ids_nodup.
  - apply in_map_iff. eexists. split; [|apply nth_error_In with i;
      exact (catalog_from_nth 0 items i it Hi)].
    reflexivity.
Qed.

Lemma catalog_from_ids_lt j items x :
  In x (map cid (catalog_from j items)) ->
  exists k, (j <= k < j + List.length items)%nat /\ x = 77 :: toString36 k.
Proof.
  revert j; induction items as [|it items IH]; intros j H; simpl in H; [destruct H|].
  destruct H as [<-|H].
  - exists j. simpl. split; [lia|reflexivity].
  - destruct (IH (S j) H) as (k & Hk & ->). exists k. simpl. split; [lia|reflexivity].
Qed.

Lemma catalog_byId_out items i :
  (List.length items <= i)%nat ->
  jm_get text_eqb (77 :: toString36 i) (catalog_byId items) = None.
Proof.
  intros Hi. unfold catalog_byId, jm_of_entries. rewrite jm_fold_notin.
  - reflexivity.
  - exact text_eqb_eq.
  - rewrite map_map. simpl. intros H.
    destruct (catalog_from_ids_lt 0 items _ H) as (k & Hk & Heq).
    injection Heq as Heq. apply toString36_inj in Heq. lia.
Qed.

(** X10: the ids of [MENU_CATALOG] are distinct, [byId.get('M' + i.toString(36))]
    is the catalog entry of the [i]-th menu item, and it is [undefined] past
    the end of the menu. *)
Theorem catalog_byId_roundtrip items :
  NoDup (map cid (catalog_list items))
  /\ (forall i it, nth_error items i = Some it ->
        jm_get text_eqb (77 :: toString36 i) (catalog_byId items)
        = Some (CatEntry (77 :: toString36 i) (name it) (or_empty (tamilName it)) (price it)))
  /\ (forall i, (List.length items <= i)%nat ->
        jm_get text_eqb (77 :: toString36 i) (catalog_byId items) = None).
Proof.
  split_conj; [apply catalog_ids_nodup|apply catalog_byId_nth|apply catalog_byId_out].
Qed.

(** ** Which items a bill lists *)

Lemma jm_set_keys_iff x k v (mp : list (option text * float)) :
  In x (map fst (jm_set opt_text_eqb k v mp)) <-> x = k \/ In x (map fst mp).
Proof.
  split; [exact (jm_set_keys_in opt_text_eqb x k v mp)|].
  induction mp as [|[k1 v1] mp IH]; simpl.
  - intros [->|[]]. left. reflexivity.
  - destruct (opt_text_eqb k1 k) eqn:E; simpl.
    + apply opt_text_eqb_eq in E. subst k1. intros [->|H]; auto.
    + intros [->|[H|H]]; auto.
Qed.

Lemma aggregate_keys menu lines agg x :
  In x (map fst (fold_left (agg_step (catalog_byId menu)) lines agg))
  <-> In x (map fst agg)
      \/ exists l cat, In l lines /\ jm_get text_eqb (fst l) (catalog_byId menu) = Some cat
                       /\ cname cat = x.
Proof.
  revert agg; induction lines as [|l lines IH]; intros agg; simpl.
  - split; [auto|]. intros [H|(l & cat & [] & _)]. exact H.
  - rewrite IH. unfold agg_step.
    destruct (jm_get text_eqb (fst l) (catalog_byId menu)) as [c|] eqn:E.
    + rewrite jm_set_keys_iff. split.
      * intros [[->|H]|(l' & cat & Hl & Hc & Hn)]; [right; exists l, c; auto|auto|].
        right. exists l', cat. auto.
      * intros [H|(l' & cat & [<-|Hl] & Hc & Hn)]; [auto| |right; exists l', cat; auto].
        rewrite E in Hc. injection Hc as <-. auto.
    + split.
      * intros [H|(l' & cat & Hl & Hc & Hn)]; [auto|]. right. exists l', cat. auto.
      * intros [H|(l' & cat & [<-|Hl] & Hc & Hn)]; [auto| |right; exists l', cat; auto].
        rewrite E in Hc. discriminate.
Qed.

Lemma aggregate_nodup menu lines agg :
  NoDup (map fst agg) ->
  NoDup (map fst (fold_left (agg_step (catalog_byId menu)) lines agg)).
Proof.
  revert agg; induction lines as [|l lines IH]; intros agg H; simpl; [exact H|].
  apply IH. unfold agg_step. destruct (jm_get _ _ _); [|exact H].
  apply jm_set_nodup; [exact opt_text_eqb_eq|exact H].
Qed.

Lemma bill_items_in menu agg it :
  In it (bill_items menu agg) <->
  exists v m, In (biName it, v) agg
    /\ find (fun m => opt_text_eqb (name m) (biName it)) menu = Some m
    /\ it = BillItem (biName it) v (js_of_Z (price m)) (js_of_Z (price m) * v)%float.
Proof.
  unfold bill_items. rewrite in_flat_map. split.
  - intros ([k v] & Hin & H). cbn [fst snd] in H.
    destruct (find (fun m => opt_text_eqb (name m) k) menu) as [m|] eqn:Ef; [|destruct H].
    destruct H as [<-|[]]. cbn [biName]. exists v, m. auto.
  - intros (v & m & Hin & Hf & Heq). exists (biName it, v). split; [exact Hin|].
    cbn [fst]. rewrite Hf. left. symmetry. exact Heq.
Qed.

Lemma bill_items_names menu agg x :
  In x (map biName (bill_items menu agg)) -> In x (map fst agg).
Proof.
  rewrite in_map_iff. intros (it & <- & Hin).
  destruct (proj1 (bill_items_in _ _ _) Hin) as (v & m & Hv & _).
  apply in_map_iff. exists (biName it, v). auto.
Qed.

Lemma bill_items_nodup menu agg :
  NoDup (map fst agg) -> NoDup (map biName (bill_items menu agg)).
Proof.
  induction agg as [|[k v] agg IH]; simpl; intros Hd; [constructor|].
  inversion Hd as [|? ? Hn Hd']; subst.
  destruct (find _ menu) as [m|]; simpl; [|auto].
  constructor; [|auto]. intros H. apply Hn. exact (bill_items_names _ _ _ H).
Qed.

(** X13: the items of a 201 bill have distinct names, and they are exactly
    the names of the catalog entries of the lines with a known id that name
    an item of the menu: each such name is listed once, with the menu price
    of the first item of that name as its unit price and
    [unitPrice * quantity] as its total, and no other item is listed. *)
Theorem bill_items_by_name menu v p items st tax tot :
  generateBillFromVoice menu v p = Resp201 items st tax tot ->
  exists lines, p = Some lines
  /\ NoDup (map biName items)
  /\ (forall nm m,
        find (fun m => opt_text_eqb (name m) nm) menu = Some m ->
        ((exists l cat, In l lines
            /\ jm_get text_eqb (fst l) (catalog_byId menu) = Some cat /\ cname cat = nm)
         <-> exists it, In it items /\ biName it = nm))
  /\ Forall (fun it =>
        exists m, find (fun m => opt_text_eqb (name m) (biName it)) menu = Some m
          /\ biUnit it = js_of_Z (price m)
          /\ biTotal it = (biUnit it * biQty it)%float) items.
Proof.
  unfold generateBillFromVoice. destruct v; try discriminate.
  destruct (trim s) as [|c r]; [discriminate|].
  destruct p as [[|l0 lines0]|]; try discriminate.
  intros H. injection H as <- _ _ _.
  exists (l0 :: lines0). set (lines := l0 :: lines0).
  split_conj; [reflexivity| | |].
  - apply bill_items_nodup, aggregate_nodup. constructor.
  - intros nm m Hf. split.
    + intros Hl. assert (Hk : In nm (map fst (aggregate menu lines))).
      { apply aggregate_keys. right. exact Hl. }
      apply in_map_iff in Hk. destruct Hk as ([k w] & Hk & Hin). cbn [fst] in Hk. subst k.
      exists (BillItem nm w (js_of_Z (price m)) (js_of_Z (price m) * w)%float).
      split; [|reflexivity]. apply bill_items_in. exists w, m. auto.
    + intros (it & Hin & <-).
      destruct (proj1 (bill_items_in _ _ _) Hin) as (w & m' & Hw & _).
      assert (Hk : In (biName it) (map fst (aggregate menu lines)))
        by (apply in_map_iff; exists (biName it, w); auto).
      apply aggregate_keys in Hk. destruct Hk as [[]|Hk]. exact Hk.
  - apply Forall_forall. intros it Hin.
    destruct (proj1 (bill_items_in _ _ _) Hin) as (w & m & Hw & Hf & Heq).
    exists m. rewrite Heq. cbn. auto.
Qed.

(** X14: [generateBillFromVoice] answers 400 exactly when the voice input is
    not a string or is blank after trimming, and 422 exactly when it is a
    non-blank string and [parsed] is [null] or has no lines. *)
Theorem bill_error_responses menu v p :
  (generateBillFromVoice menu v p = Resp400
     <-> forall s, v = JSString s -> trim s = [])
  /\ (generateBillFromVoice menu v p = Resp422
     <-> (exists s, v = JSString s /\ trim s <> []) /\ (p = None \/ p = Some [])).
Proof.
  unfold generateBillFromVoice.
  destruct v; try (split; split;
    [intros _ s' H'; discriminate|intros _; reflexivity
    |intros H'; discriminate|intros [(s' & H' & _) _]; discriminate]).
  destruct (trim s) as [|c r] eqn:Et.
  - split; split.
    + intros _ s' H'. injection H' as <-. exact Et.
    + intros _. reflexivity.
    + discriminate.
    + intros [(s' & H' & Hn) _]. injection H' as <-. contradiction.
  - split; split.
    + destruct p as [[|]|]; discriminate.
    + intros H. specialize (H s eq_refl). rewrite Et in H. discriminate.
    + intros H. split; [exists s; split; [reflexivity|rewrite Et; discriminate]|].
      destruct p as [[|]|]; auto; discriminate.
    + intros [_ [->| ->]]; reflexivity.
Qed.

Lemma agg_unknown menu lines agg :
  Forall (fun l => jm_get text_eqb (fst l) (catalog_byId menu) = None) lines ->
  fold_left (agg_step (catalog_byId menu)) lines agg = agg.
Proof.
  revert agg; induction lines as [|l lines IH]; intros agg H; [reflexivity|].
  inversion H; subst. simpl. unfold agg_step at 2. rewrite H2. auto.
Qed.

(** X15: a non-blank input whose lines all have unknown ids still gives a 201
    bill, with no items and subtotal, tax and total 0. *)
Theorem bill_unknown_ids_empty menu s lines :
  trim s <> [] -> lines <> [] ->
  Forall (fun l => jm_get text_eqb (fst l) (catalog_byId menu) = None) lines ->
  generateBillFromVoice menu (JSString s) (Some lines) = Resp201 [] 0%float 0%float 0%float.
Proof.
  intros Ht Hl Hu. unfold generateBillFromVoice.
  destruct (trim s) as [|c r]; [contradiction|].
  destruct lines as [|l ls]; [contradiction|].
  unfold aggregate. rewrite (agg_unknown _ _ _ Hu). reflexivity.
Qed.

(** ** [cosineSimilarity] *)

Lemma cos_fold_na l d nb :
  Forall (fun ab => is_zero_float (fst ab)) l ->
  snd (fst (fold_left cos_acc l (d, 0%float, nb))) = 0%float.
Proof.
  revert d nb; induction l as [|[a b] l IH]; intros d nb H; [reflexivity|].
  inversion H as [|? ? Ha Hl]; subst. simpl.
  destruct Ha as [Ha|Ha]; cbn [fst] in Ha; subst a; apply IH; exact Hl.
Qed.

Lemma cos_fold_nb l d na :
  Forall (fun ab => is_zero_float (snd ab)) l ->
  snd (fold_left cos_acc l (d, na, 0%float)) = 0%float.
Proof.
  revert d na; induction l as [|[a b] l IH]; intros d na H; [reflexivity|].
  inversion H as [|? ? Hb Hl]; subst. simpl.
  destruct Hb as [Hb|Hb]; cbn [snd] in Hb; subst b; apply IH; exact Hl.
Qed.

(** X17: [cosineSimilarity] of same-length vectors one of which holds only
    zeros ([0] or [-0]) is [0], whatever the other vector holds. *)
Theorem cosine_zero_vector a b :
  List.length a = List.length b ->
  Forall is_zero_float a \/ Forall is_zero_float b ->
  cosineSimilarity a b = Returns 0%float.
Proof.
  intros Hlen Hz. unfold cosineSimilarity.
  rewrite Hlen, Nat.eqb_refl. cbn [negb].
  destruct (fold_left cos_acc (combine a b) (0%float, 0%float, 0%float))
    as [[dot na] nb] eqn:Ef.
  destruct Hz as [Hz|Hz].
  - assert (Hna : na = 0%float).
    { pose proof (cos_fold_na (combine a b) 0%float 0%float) as H.
      rewrite Ef in H. apply H. apply Forall_forall. intros [x y] Hin.
      rewrite Forall_forall in Hz. exact (Hz x (in_combine_l _ _ _ _ Hin)). }
    subst na. reflexivity.
  - assert (Hnb : nb = 0%float).
    { pose proof (cos_fold_nb (combine a b) 0%float 0%float) as H.
      rewrite Ef in H. apply H. apply Forall_forall. intros [x y] Hin.
      rewrite Forall_forall in Hz. exact (Hz y (in_combine_r _ _ _ _ Hin)). }
    subst nb. destruct (PrimFloat.eqb (PrimFloat.sqrt na) 0%float); reflexivity.
Qed.

(** X7: every line kept by the sanitising step of [llmParseToIds] has a
    quantity of at least 1 and an id with no surrounding whitespace. *)
Theorem sanitize_lines_props js :
  Forall (fun l => 1 <= snd l /\ trim (fst l) = fst l) (sanitize_lines js).
Proof. exact (sanitize_lines_shape js). Qed.

Lemma to36_aux_chars f n :
  Forall (fun c => (48 <= c <= 57) \/ (97 <= c <= 122)) (to36_aux f n).
Proof.
  assert (Hd : forall d, (d < 36)%nat -> (48 <= digit36 d <= 57) \/ (97 <= digit36 d <= 122)).
  { intros d Hd. unfold digit36. destruct (Nat.ltb_spec d 10); lia. }
  revert n; induction f as [|f IH]; intros n; cbn [to36_aux]; [constructor|].
  destruct (Nat.ltb_spec n 36).
  - constructor; [apply Hd; lia|constructor].
  - apply Forall_app. split; [apply IH|].
    constructor; [apply Hd, Nat.mod_upper_bound; lia|constructor].
Qed.

(** X9: [n.toString(36)] is a non-empty run of lowercase base-36 digits that
    [parseInt(_, 36)] reads back as [n]. *)
Theorem toString36_roundtrip n :
  parseInt36 (toString36 n) = Z.of_nat n
  /\ toString36 n <> []
  /\ Forall (fun c => (48 <= c <= 57) \/ (97 <= c <= 122)) (toString36 n).
Proof.
  split_conj; [apply parseInt36_toString36| |apply to36_aux_chars].
  unfold toString36. cbn [to36_aux]. destruct (Nat.ltb n 36); [discriminate|].
  intros H. apply app_eq_nil in H. destruct H as [_ H]. discriminate.
Qed.

Lemma preprocessText_chars_witness :
  In 98 (preprocessText (u " a,, b ")) /\
  (is_zero_width 98 = false /\ is_punct 98 = false /\ (is_space 98 = true -> 98 = 32)).
Proof.
  assert (H : In 98 (preprocessText (u " a,, b "))) by (vm_compute; auto).
  split; [exact H|]. exact (preprocessText_chars _ _ H).
Defined.

Lemma detect_span_bounds_witness :
  (2 <= List.length (u "2 dosa"))%nat /\
  (detectQuantityNear (u "2 dosa") 2 [] = default_q
   \/ (0 <= qstart (detectQuantityNear (u "2 dosa") 2 [])
       /\ Z.of_nat 2 - 14 <= qstart (detectQuantityNear (u "2 dosa") 2 [])
       /\ qstart (detectQuantityNear (u "2 dosa") 2 []) < qend (detectQuantityNear (u "2 dosa") 2 [])
       /\ qend (detectQuantityNear (u "2 dosa") 2 []) <= Z.of_nat 2 + 10
       /\ qend (detectQuantityNear (u "2 dosa") 2 []) <= Z.of_nat (List.length (u "2 dosa")))).
Proof.
  assert (H : (2 <= List.length (u "2 dosa"))%nat) by (vm_compute; lia).
  split; [exact H|]. exact (detect_span_bounds _ _ _ H).
Defined.

Lemma used_ranges_within_witness :
  In (0, 2) (usedRanges (scan bc_variant (u "2 dosa"))) /\
  (0 <= fst (0, 2) /\ fst (0, 2) < snd (0, 2) /\ snd (0, 2) <= Z.of_nat (List.length (u "2 dosa"))).
Proof.
  assert (H : In (0, 2) (usedRanges (scan bc_variant (u "2 dosa")))) by (vm_compute; auto).
  split; [exact H|]. exact (used_ranges_within _ _ _ H).
Defined.

Lemma bill_unknown_ids_empty_witness :
  trim (u "dosa") <> [] /\ [(u "Mzz", 4%float)] <> []
  /\ Forall (fun l => jm_get text_eqb (fst l) (catalog_byId DEFAULT_MENU_ITEMS) = None)
       [(u "Mzz", 4%float)]
  /\ generateBillFromVoice DEFAULT_MENU_ITEMS (JSString (u "dosa")) (Some [(u "Mzz", 4%float)])
     = Resp201 [] 0%float 0%float 0%float.
Proof.
  assert (H1 : trim (u "dosa") <> []) by (vm_compute; discriminate).
  assert (H2 : [(u "Mzz", 4%float)] <> []) by discriminate.
  assert (H3 : Forall (fun l => jm_get text_eqb (fst l) (catalog_byId DEFAULT_MENU_ITEMS) = None)
                 [(u "Mzz", 4%float)]) by (repeat constructor).
  split_conj; [exact H1|exact H2|exact H3|].
  exact (bill_unknown_ids_empty _ _ _ H1 H2 H3).
Defined.

Lemma bill_items_by_name_witness :
  generateBillFromVoice DEFAULT_MENU_ITEMS (JSString (u "dosa"))
    (Some [(u "M0", 2%float); (u "M4", 1%float); (u "M0", 1%float); (u "Mzz", 4%float)])
  = Resp201 [BillItem (Some (u "Plain Dosa")) 3%float 30%float 90%float;
             BillItem (Some (u "Masala Dosa")) 1%float 60%float 60%float]
      150%float 0%float 150%float
  /\ exists lines,
       Some [(u "M0", 2%float); (u "M4", 1%float); (u "M0", 1%float); (u "Mzz", 4%float)]
       = Some lines
  /\ NoDup (map biName [BillItem (Some (u "Plain Dosa")) 3%float 30%float 90%float;
                        BillItem (Some (u "Masala Dosa")) 1%float 60%float 60%float])
  /\ (forall nm m,
        find (fun m => opt_text_eqb (name m) nm) DEFAULT_MENU_ITEMS = Some m ->
        ((exists l cat, In l lines
            /\ jm_get text_eqb (fst l) (catalog_byId DEFAULT_MENU_ITEMS) = Some cat
            /\ cname cat = nm)
         <-> exists it, In it [BillItem (Some (u "Plain Dosa")) 3%float 30%float 90%float;
                               BillItem (Some (u "Masala Dosa")) 1%float 60%float 60%float]
                        /\ biName it = nm))
  /\ Forall (fun it =>
        exists m, find (fun m => opt_text_eqb (name m) (biName it)) DEFAULT_MENU_ITEMS = Some m
          /\ biUnit it = js_of_Z (price m)
          /\ biTotal it = (biUnit it * biQty it)%float)
       [BillItem (Some (u "Plain Dosa")) 3%float 30%float 90%float;
        BillItem (Some (u "Masala Dosa")) 1%float 60%float 60%float].
Proof.
  assert (H : generateBillFromVoice DEFAULT_MENU_ITEMS (JSString (u "dosa"))
                (Some [(u "M0", 2%float); (u "M4", 1%float); (u "M0", 1%float); (u "Mzz", 4%float)])
              = Resp201 [BillItem (Some (u "Plain Dosa")) 3%float 30%float 90%float;
                         BillItem (Some (u "Masala Dosa")) 1%float 60%float 60%float]
                  150%float 0%float 150%float)
    by (vm_compute; reflexivity).
  split; [exact H|]. exact (bill_items_by_name _ _ _ _ _ _ _ H).
Defined.

Lemma cosine_zero_vector_witness :
  List.length [0%float; (-0)%float] = List.length [3%float; 4%float]
  /\ cosineSimilarity [0%float; (-0)%float] [3%float; 4%float] = Returns 0%float.
Proof.
  assert (H : List.length [0%float; (-0)%float] = List.length [3%float; 4%float])
    by reflexivity.
  split; [exact H|]. apply (cosine_zero_vector _ _ H).
  left. constructor; [left; reflexivity|constructor; [right; reflexivity|constructor]].
Defined.
